(** * validateImages.ts: image asset and metadata validation

    A shallow embedding of [src/scripts/validateImages.ts] and the
    properties of its three parts: the image header reader
    [getImageDimensions], the asset pass [validateAssetsImages] and the
    metadata pass [validateMetadataImages].

    The script runs on Node.js.  Module [JS] models the pieces of the
    JavaScript runtime the script calls (Buffer reads, number
    arithmetic, string and path helpers, the two regular expressions);
    module [Script] is the script itself, function by function, from
    [jsonMetadata] on for the metadata pass; module [Spec] holds the
    notions the specification is worded in and the sample files; module
    [Loader] is the part of the script that builds [jsonMetadata];
    module [Notions] holds what the further properties are worded in.
    The properties come last. *)

From Stdlib Require Import ZArith List String Ascii Bool Lia DecimalString.
From Stdlib.Strings Require Import Byte.
From Equations Require Import Equations.
Import ListNotations.

Open Scope string_scope.
Open Scope list_scope.
Open Scope Z_scope.

(** String concatenation, as [+] and template literals do it. *)
Infix "+++" := String.append (right associativity, at level 60).

(** ** The JavaScript runtime, as far as the script uses it *)

Module JS.

(** Exceptions the runtime raises on the script's behalf: a Buffer read
    outside the buffer is a [RangeError] (ERR_OUT_OF_RANGE); a method
    call on [undefined] or on a value without that method, a property
    read on [null] and the conversion to text of an object that has no
    primitive value are a [TypeError]; a call of [fs] that the operating
    system refuses is an [Error] that carries the system's code (EISDIR,
    ENOENT, EACCES, ...), here [SystemError]. *)
Inductive exn : Type := RangeError | TypeError | SystemError.

(** How a call ends: it returns, it throws (nothing in the script
    catches), or it calls [process.exit(code)] after having written
    [console] to the terminal. *)
Inductive completion (A : Type) : Type :=
| Normal (a : A)
| Throw (e : exn)
| ProcessExit (code : Z) (console : list string).
Arguments Normal {A} a.
Arguments Throw {A} e.
Arguments ProcessExit {A} code console.

Definition bind {A B} (m : completion A) (k : A -> completion B)
  : completion B :=
  match m with
  | Normal a => k a
  | Throw e => Throw e
  | ProcessExit c out => ProcessExit c out
  end.

Notation "x <- m ;; k" := (bind m (fun x => k))
  (at level 61, m at next level, right associativity).

(** *** Buffer *)

Definition Buffer := list byte.

Definition u8 (b : byte) : Z := Z.of_N (Byte.to_N b).

Definition length (buffer : Buffer) : Z := Z.of_nat (List.length buffer).

(** [buffer[i]]: the byte as a number, [undefined] outside the buffer. *)
Definition at_ (buffer : Buffer) (i : Z) : option Z :=
  if i <? 0 then None else option_map u8 (nth_error buffer (Z.to_nat i)).

(** [buffer.slice(0, n)]: clamps to the buffer. *)
Definition slice0 (n : nat) (buffer : Buffer) : Buffer := firstn n buffer.

Definition hexDigit (n : Z) : ascii :=
  nth (Z.to_nat n)
    ["0"; "1"; "2"; "3"; "4"; "5"; "6"; "7"; "8"; "9";
     "a"; "b"; "c"; "d"; "e"; "f"]%char "0"%char.

Definition hexOfByte (b : byte) : string :=
  String (hexDigit (u8 b / 16)) (String (hexDigit (u8 b mod 16)) "").

(** [buffer.toString("hex")]: two lower-case digits per byte, nothing
    between them. *)
Fixpoint toStringHex (buffer : Buffer) : string :=
  match buffer with
  | [] => ""
  | b :: rest => hexOfByte b +++ toStringHex rest
  end.

(** [buffer.readUInt16BE(offset)] for an integral offset: Node reads the
    first and last byte and raises when either is [undefined]. *)
Definition readUInt16BE (buffer : Buffer) (offset : Z) : completion Z :=
  match at_ buffer offset, at_ buffer (offset + 1) with
  | Some first, Some last => Normal (first * 2 ^ 8 + last)
  | _, _ => Throw RangeError
  end.

(** [buffer.readUInt32BE(offset)], likewise. *)
Definition readUInt32BE (buffer : Buffer) (offset : Z) : completion Z :=
  match at_ buffer offset, at_ buffer (offset + 1),
        at_ buffer (offset + 2), at_ buffer (offset + 3) with
  | Some first, Some b1, Some b2, Some last =>
      Normal (first * 2 ^ 24 + b1 * 2 ^ 16 + b2 * 2 ^ 8 + last)
  | _, _, _, _ => Throw RangeError
  end.

(** *** Numbers

    A JavaScript number is an IEEE double.  The script only ever holds
    integers below [2^64] in them, so a number is modelled by the integer
    it denotes and each operation rounds its exact result to the nearest
    double, ties to even. *)
Definition roundToDouble (z : Z) : Z :=
  let a := Z.abs z in
  let e := Z.log2 a - 52 in
  if e <=? 0 then z
  else
    let q := a / 2 ^ e in
    let r := a mod 2 ^ e in
    let half := 2 ^ (e - 1) in
    let q' := if r <? half then q
              else if half <? r then q + 1
              else if Z.even q then q else q + 1 in
    Z.sgn z * (q' * 2 ^ e).

Definition mul (a b : Z) : Z := roundToDouble (a * b).
Definition sub (a b : Z) : Z := roundToDouble (a - b).
(** [a % b]: exact, with the sign of the dividend. *)
Definition rem (a b : Z) : Z := Z.rem a b.

(** *** Strings

    Strings are modelled as byte strings; every character the script
    tests for is ASCII. *)

Definition lowerChar (c : ascii) : ascii :=
  let n := nat_of_ascii c in
  if ((65 <=? n) && (n <=? 90))%nat then ascii_of_nat (n + 32) else c.

Fixpoint toLowerCase (s : string) : string :=
  match s with
  | EmptyString => EmptyString
  | String c s' => String (lowerChar c) (toLowerCase s')
  end.

Fixpoint drop (n : nat) (s : string) : string :=
  match n, s with
  | O, _ => s
  | S n', String _ s' => drop n' s'
  | S _, EmptyString => EmptyString
  end.

(** [s.includes(sub)] *)
Fixpoint includes (sub s : string) : bool :=
  String.prefix sub s ||
  match s with
  | EmptyString => false
  | String _ s' => includes sub s'
  end.

(** [s.replace(pat, "")] with a string pattern: only the first
    occurrence goes. *)
Fixpoint replaceFirst (pat s : string) : string :=
  if String.prefix pat s then drop (String.length pat) s
  else match s with
       | EmptyString => EmptyString
       | String c s' => String c (replaceFirst pat s')
       end.

(** [list.includes(s)] on an array of strings. *)
Definition arrayIncludes (l : list string) (s : string) : bool :=
  existsb (String.eqb s) l.

(** Decimal rendering of a non-negative integer in a template literal. *)
Definition showNat (n : nat) : string :=
  NilEmpty.string_of_uint (Nat.to_uint n).
Definition showZ (z : Z) : string :=
  NilEmpty.string_of_uint (N.to_uint (Z.to_N z)).

(** *** path (POSIX) *)

(** The suffix of [s] that starts at its last dot. *)
Fixpoint lastDot (s : string) : option string :=
  match s with
  | EmptyString => None
  | String c s' =>
      match lastDot s' with
      | Some e => Some e
      | None => if Ascii.eqb c "."%char then Some s else None
      end
  end.

(** [path.extname(name)] for a directory entry name (no separator in
    it): from the last dot on, and empty when there is no dot, when the
    only dot leads the name, or when the name is [..]. *)
Definition extname (name : string) : string :=
  match lastDot name with
  | None => ""
  | Some e =>
      if (String.length e =? String.length name)%nat then ""
      else if String.eqb name ".." then ""
      else e
  end.

(** [path.join(dir, name)] for the path [dir] of a directory the
    traversal is in and the [name] of one of its entries: [dir] is made
    of the components the traversal came by, [name] is one component
    that is neither [.] nor [..], and nothing is there to normalise
    (lemma [pathJoin_entry] below). *)
Definition join (dir name : string) : string := dir +++ "/" +++ name.

(** The parts of a path between its separators; an empty part stands
    before a leading separator, between two adjacent ones and after a
    trailing one. *)
Fixpoint segments (path : string) : list string :=
  match path with
  | EmptyString => [EmptyString]
  | String c rest =>
      if Ascii.eqb c "/"%char then EmptyString :: segments rest
      else match segments rest with
           | seg :: more => String c seg :: more
           | [] => [String c EmptyString]
           end
  end.

(** [segs.join("/")] *)
Fixpoint joinSegments (segs : list string) : string :=
  match segs with
  | [] => ""
  | seg :: more =>
      match more with
      | [] => seg
      | _ :: _ => seg +++ "/" +++ joinSegments more
      end
  end.

(** One turn of the loop of [normalizeString] (lib/path.js) at the end
    of the segment [seg]; [res] holds the segments kept so far, the last
    one first.  An empty segment and [.] are dropped; [..] takes the
    last segment away unless there is none or it is [..] itself, and is
    then kept only where the path may climb above its start; anything
    else is kept. *)
Definition normalizeSegment (allowAboveRoot : bool) (res : list string)
    (seg : string) : list string :=
  if String.eqb seg "" || String.eqb seg "." then res
  else if String.eqb seg ".." then
    match res with
    | last :: before =>
        if String.eqb last ".."
        then (if allowAboveRoot then seg :: res else res)
        else before
    | [] => if allowAboveRoot then [seg] else []
    end
  else seg :: res.

Definition normalizeString (path : string) (allowAboveRoot : bool) : string :=
  joinSegments
    (rev (fold_left (normalizeSegment allowAboveRoot) (segments path) [])).

Definition startsWithSlash (s : string) : bool :=
  match s with
  | String c _ => Ascii.eqb c "/"%char
  | EmptyString => false
  end.

Fixpoint endsWithSlash (s : string) : bool :=
  match s with
  | EmptyString => false
  | String c rest =>
      match rest with
      | EmptyString => Ascii.eqb c "/"%char
      | String _ _ => endsWithSlash rest
      end
  end.

(** [path.normalize(path)] *)
Definition normalize (path : string) : string :=
  if String.eqb path "" then "."
  else
    let isAbsolute := startsWithSlash path in
    let trailingSeparator := endsWithSlash path in
    let res := normalizeString path (negb isAbsolute) in
    if String.eqb res "" then
      if isAbsolute then "/" else if trailingSeparator then "./" else "."
    else
      let res := if trailingSeparator then res +++ "/" else res in
      if isAbsolute then "/" +++ res else res.

(** [path.join(a, b)] in general: the arguments that are not empty,
    joined by a separator and normalised. *)
Definition pathJoin (a b : string) : string :=
  match a, b with
  | EmptyString, EmptyString => "."
  | EmptyString, String _ _ => normalize b
  | String _ _, EmptyString => normalize a
  | String _ _, String _ _ => normalize (a +++ "/" +++ b)
  end.

(** [path.relative(from, to)] for a path [to] below [from]. *)
Definition relative (from to : string) : string :=
  if String.prefix (from +++ "/") to
  then drop (String.length from + 1) to
  else to.

(** *** The regular expressions [/^0x[0-9a-f]{n}$/i] *)

Definition isHexDigit (c : ascii) : bool :=
  let n := nat_of_ascii c in
  ((48 <=? n) && (n <=? 57) || (97 <=? n) && (n <=? 102)
   || (65 <=? n) && (n <=? 70))%nat.

Fixpoint allHex (s : string) : bool :=
  match s with
  | EmptyString => true
  | String c s' => isHexDigit c && allHex s'
  end.

Definition hexAddressRegexTest (n : nat) (s : string) : bool :=
  match s with
  | String c0 (String c1 digits) =>
      Ascii.eqb c0 "0"%char
      && (Ascii.eqb c1 "x"%char || Ascii.eqb c1 "X"%char)
      && (String.length digits =? n)%nat
      && allHex digits
  | _ => false
  end.

End JS.

(** ** The script *)

Module Script.
Import JS.

(** *** Config *)

Definition METADATA_FOLDER : string := "src".
Definition FOLDER_PATH : string := join METADATA_FOLDER "assets".
Definition METADATA_FOLDER_EXCLUDED : list string := ["assets"].

(** *** getImageDimensions

    The function is modelled on the bytes [fs.readFileSync(imagePath)]
    returned. *)

Record Dimensions : Type := { width : Z; height : Z }.

Definition inspect {A} (a : A) : { b : A | a = b } := exist _ a eq_refl.

(** [buffer[i] === 0xff && buffer[i + 1] >= 0xc0 && buffer[i + 1] <= 0xc3];
    a comparison with [undefined] is false. *)
Definition isStartOfFrame (buffer : Buffer) (i : Z) : bool :=
  match at_ buffer i, at_ buffer (i + 1) with
  | Some m0, Some m1 => (m0 =? 255) && (192 <=? m1) && (m1 <=? 195)
  | _, _ => false
  end.

(** The [while (i < buffer.length)] loop of the JPG branch, entered at
    [i]; falling out of the loop reaches [return null]. *)
Equations? jpegScan (buffer : Buffer) (i : Z) : completion (option Dimensions)
  by wf (Z.to_nat (length buffer - i)) lt :=
  jpegScan buffer i with Z_lt_dec i (length buffer) => {
    | right _ => Normal None
    | left _ with inspect (readUInt16BE buffer (i + 2)) => {
        | exist _ (Normal segmentLength) _ =>
            if isStartOfFrame buffer i then
              height <- readUInt16BE buffer (i + 5) ;;
              width <- readUInt16BE buffer (i + 7) ;;
              Normal (Some {| width := width; height := height |})
            else jpegScan buffer (i + segmentLength + 2)
        | exist _ (Throw e) _ => Throw e
        | exist _ (ProcessExit c out) _ => ProcessExit c out } }.
Proof.
  assert (0 <= segmentLength).
  { unfold readUInt16BE, at_ in e.
    destruct (i + 2 <? 0); [discriminate|].
    destruct (nth_error buffer (Z.to_nat (i + 2))); [|discriminate].
    destruct (i + 2 + 1 <? 0); [discriminate|].
    destruct (nth_error buffer (Z.to_nat (i + 2 + 1))); [|discriminate].
    simpl in e. injection e as <-. unfold u8. lia. }
  lia.
Qed.

Definition getImageDimensions (buffer : Buffer)
  : completion (option Dimensions) :=
  (* Check PNG header *)
  if String.eqb (toStringHex (slice0 8 buffer)) "89504e470d0a1a0a" then
    width <- readUInt32BE buffer 16 ;;
    height <- readUInt32BE buffer 20 ;;
    Normal (Some {| width := width; height := height |})
  (* Check JPG header *)
  else if String.eqb (toStringHex (slice0 2 buffer)) "ff d8" then
    jpegScan buffer 2
  (* Unsupported file format *)
  else Normal None.

(** *** validateAssetsImages *)

(** What [fs.readdirSync(dir, { withFileTypes: true })] lists: an entry
    that is no directory, with the bytes [fs.readFileSync] returns for
    it; a directory, with its own listing; and an entry that the file
    system does not let the script read, for which [isDirectory] says
    what [entry.isDirectory()] answers.  A directory that cannot be
    listed makes [fs.readdirSync] raise; an entry that is no directory
    and cannot be read (a symbolic link to a directory or to nothing, a
    file without read permission) makes [fs.readFileSync] raise. *)
#[warnings="-register-all"]
Inductive Dirent : Type :=
| File (name : string) (content : Buffer)
| Directory (name : string) (entries : list Dirent)
| Unreadable (name : string) (isDirectory : bool).

Definition tokenRegex : string -> bool := hexAddressRegexTest 40.
Definition validatorRegex : string -> bool := hexAddressRegexTest 96.

Definition invalidTokenName (relativePath : string) : string :=
  relativePath +++ ": Invalid file name! Must be a valid token address.".
Definition invalidValidatorName (relativePath : string) : string :=
  relativePath
  +++ ": Invalid file name! Must be a valid validator pubkey address.".

(** "Validate file names" (lines 84-106). *)
Definition validateFileName (relativePath ext : string)
    (errors : list string) : list string :=
  if includes "tokens" relativePath then
    if negb (tokenRegex
               (replaceFirst "tokens/" (replaceFirst ext relativePath)))
    then errors ++ [invalidTokenName relativePath]
    else errors
  else if includes "validators" relativePath then
    if negb (validatorRegex
               (replaceFirst "validators/" (replaceFirst ext relativePath)))
    then errors ++ [invalidValidatorName relativePath]
    else errors
  else errors.

(** [${dimensions?.width}]: the number, or [undefined]. *)
Definition showField (proj : Dimensions -> Z) (dimensions : option Dimensions)
  : string :=
  match dimensions with
  | Some d => showZ (proj d)
  | None => "undefined"
  end.

Definition invalidDimensions (relativePath : string)
    (dimensions : option Dimensions) : string :=
  relativePath +++ ": Invalid (Dimensions: " +++ showField width dimensions
  +++ "x" +++ showField height dimensions
  +++ ")! Must be 1024x1024 pixels.".

(** The condition of lines 109-114. *)
Definition badDimensions (dimensions : option Dimensions) : bool :=
  match dimensions with
  | None => true
  | Some d =>
      (width d <? 1024) || (height d <? 1024)
      || negb (width d =? height d)
  end.

(** "Validate dimensions" (lines 109-118). *)
Definition validateDimensions (relativePath : string)
    (dimensions : option Dimensions) (errors : list string) : list string :=
  if badDimensions dimensions
  then errors ++ [invalidDimensions relativePath dimensions]
  else errors.

Definition transparentImage (relativePath : string) : string :=
  relativePath +++ ": Invalid image! Image cannot be transparent!".

(** The corner check of lines 121-145; [buffer] is the second
    [fs.readFileSync(fullPath)] of the same file. *)
Definition validateTransparency (relativePath ext : string)
    (buffer : Buffer) (dimensions : option Dimensions)
    (errors : list string) : completion (list string) :=
  match String.eqb ext ".png", dimensions with
  | true, Some d =>
      topLeftPixel <- readUInt32BE buffer 0 ;;
      topRightPixel <- readUInt32BE buffer (sub (width d) 1) ;;
      bottomLeftPixel <-
        readUInt32BE buffer
          (rem (mul (width d) (sub (height d) 1)) (length buffer)) ;;
      bottomRightPixel <-
        readUInt32BE buffer
          (Z.min (sub (mul (width d) (height d)) 1)
                 (sub (length buffer) 4)) ;;
      if (topLeftPixel =? 0) || (topRightPixel =? 0)
         || (bottomLeftPixel =? 0) || (bottomRightPixel =? 0)
      then Normal (errors ++ [transparentImage relativePath])
      else Normal errors
  | _, _ => Normal errors
  end.

Definition isImageExt (ext : string) : bool :=
  String.eqb ext ".png" || String.eqb ext ".jpg" || String.eqb ext ".jpeg".

Definition unsupportedFileType (fullPath : string) : string :=
  fullPath +++ ": Unsupported file type!".

(** The last [else] of the loop body (lines 76-150): an entry that is
    neither a directory nor on the allow list. *)
Definition processFile (dirPath name : string) (content : Buffer)
    (errors : list string) : completion (list string) :=
  let fullPath := join dirPath name in
  let ext := toLowerCase (extname name) in
  if isImageExt ext then
    dimensions <- getImageDimensions content ;;
    let relativePath := relative FOLDER_PATH fullPath in
    let errors := validateFileName relativePath ext errors in
    let errors := validateDimensions relativePath dimensions errors in
    validateTransparency relativePath ext content dimensions errors
  else ProcessExit 1 [unsupportedFileType fullPath].

Definition allowListed (name : string) : bool :=
  arrayIncludes [".DS_Store"; "validator-default.png"] name.

(** One turn of [for (const entry of entries)] in [processDirectory]. *)
Fixpoint processEntry (dirPath : string) (entry : Dirent)
    (errors : list string) {struct entry} : completion (list string) :=
  match entry with
  | Directory name entries =>
      (fix processEntries (dirPath : string) (entries : list Dirent)
           (errors : list string) {struct entries}
         : completion (list string) :=
         match entries with
         | [] => Normal errors
         | entry :: rest =>
             errors <- processEntry dirPath entry errors ;;
             processEntries dirPath rest errors
         end) (join dirPath name) entries errors
  | File name content =>
      if allowListed name then Normal errors
      else processFile dirPath name content errors
  | Unreadable name isDirectory =>
      if isDirectory then
        (* fs.readdirSync(dirPath) of the recursive call *)
        Throw SystemError
      else if allowListed name then Normal errors
      else if isImageExt (toLowerCase (extname name)) then
        (* fs.readFileSync(imagePath) in getImageDimensions *)
        Throw SystemError
      else ProcessExit 1 [unsupportedFileType (join dirPath name)]
  end.

(** [processDirectory(dirPath)], given the listing of [dirPath]. *)
Fixpoint processDirectory (dirPath : string) (entries : list Dirent)
    (errors : list string) : completion (list string) :=
  match entries with
  | [] => Normal errors
  | entry :: rest =>
      errors <- processEntry dirPath entry errors ;;
      processDirectory dirPath rest errors
  end.

Definition esc : string := String (ascii_of_nat 27) "".
Definition red (s : string) : string := esc +++ "[31m" +++ s +++ esc +++ "[0m".
Definition yellow (s : string) : string :=
  esc +++ "[33m" +++ s +++ esc +++ "[0m".

(** [validateAssetsImages()], given the listing of [FOLDER_PATH]. *)
Definition validateAssetsImages (assets : list Dirent) : completion unit :=
  errors <- processDirectory FOLDER_PATH assets [] ;;
  if (0 <? List.length errors)%nat then
    ProcessExit 1
      ((showNat (List.length errors) +++ " Errors found in assets folder:")
       :: map red errors)
  else Normal tt.

(** *** validateMetadataImages

    The checks are modelled on [jsonMetadata], the object lines 183-214
    build: category (folder) name to file name to the value found under
    the category's key in that file.  An object is the list of its
    entries in [Object.keys] order. *)

(** A field of an array element, as the template literal [${...}] sees
    it: [undefined] when the element has no such field; a value together
    with the text it is written as (a string as itself, a number in
    decimal, [null] as [null], an array as its elements between commas,
    a plain object as [[object Object]]); or a value that cannot be
    written at all, an object that holds a [toString] of its own (or an
    array with such an object in it), on which the conversion raises a
    TypeError. *)
Inductive Field : Type :=
| Undefined
| Text (text : string)
| NoText.

(** The three fields the checks read. *)
Record Entity : Type := {
  address : Field;
  id : Field;
  stakingTokenAddress : Field
}.

(** An element of a category's array: [null], on which reading a field
    raises a TypeError, or any other value, seen through the three
    fields (a string, a number, a boolean and an array have none). *)
Inductive Element : Type :=
| Null
| Value (fields : Entity).

(** The value stored for one file: an array of elements, or [None] for
    anything [forEach] cannot be called on (a file without the
    category's key stores [undefined]). *)
Definition Content : Type := option (list Element).

Definition Metadata : Type := list (string * list (string * Content)).

Fixpoint lookup {A} (key : string) (obj : list (string * A)) : option A :=
  match obj with
  | [] => None
  | (k, v) :: rest => if String.eqb key k then Some v else lookup key rest
  end.

Definition keys {A} (obj : list (string * A)) : list string := map fst obj.

(** [list.forEach(f)] where [f] pushes onto [errors] and may throw. *)
Fixpoint forEach {A} (f : A -> list string -> completion (list string))
    (l : list A) (errors : list string) : completion (list string) :=
  match l with
  | [] => Normal errors
  | x :: rest => errors <- f x errors ;; forEach f rest errors
  end.

(** [${token.address}] and the like. *)
Definition showId (field : Field) : completion string :=
  match field with
  | Undefined => Normal "undefined"
  | Text text => Normal text
  | NoText => Throw TypeError
  end.

Definition newline : string := String (ascii_of_nat 10) "".

Section Metadata.

(** [fs.existsSync] and [__dirname]. *)
Variable existsSync : string -> bool.
Variable dirname : string.

Definition noImage (filePath : string) : bool :=
  negb (existsSync (filePath +++ ".png"))
  && negb (existsSync (filePath +++ ".jpg"))
  && negb (existsSync (filePath +++ ".jpeg")).

Definition tokenNotFound (ident : string) : string :=
  ident +++ ":" +++ newline
  +++ "Token file not found in assets/tokens folder!".
Definition validatorNotFound (ident : string) : string :=
  ident +++ ":" +++ newline
  +++ "Validator file not found in assets/validators folder!".
Definition vaultNotFound (ident : string) : string :=
  ident +++ ":" +++ newline
  +++ "Vault file not found in assets/tokens folder!".

(** The three innermost callbacks (lines 223-237, 243-257, 263-277).
    The identifier is written out twice, into the path and into the
    message; the same text comes out both times. *)
Definition checkToken (token : Element) (errors : list string)
  : completion (list string) :=
  match token with
  | Null => Throw TypeError
  | Value token =>
      ident <- showId (address token) ;;
      let tokenFilePath :=
        pathJoin dirname
          ("../" +++ METADATA_FOLDER +++ "/assets/tokens/" +++ ident) in
      if noImage tokenFilePath
      then Normal (errors ++ [tokenNotFound ident])
      else Normal errors
  end.

Definition checkValidator (validator : Element) (errors : list string)
  : completion (list string) :=
  match validator with
  | Null => Throw TypeError
  | Value validator =>
      ident <- showId (id validator) ;;
      let validatorFilePath :=
        pathJoin dirname
          ("../" +++ METADATA_FOLDER +++ "/assets/validators/" +++ ident) in
      if noImage validatorFilePath
      then Normal (errors ++ [validatorNotFound ident])
      else Normal errors
  end.

Definition checkVault (vault : Element) (errors : list string)
  : completion (list string) :=
  match vault with
  | Null => Throw TypeError
  | Value vault =>
      ident <- showId (stakingTokenAddress vault) ;;
      let vaultFilePath :=
        pathJoin dirname
          ("../" +++ METADATA_FOLDER +++ "/assets/tokens/" +++ ident) in
      if noImage vaultFilePath
      then Normal (errors ++ [vaultNotFound ident])
      else Normal errors
  end.

(** [Object.keys(jsonMetadata[key]).forEach((file) =>
      jsonMetadata[key][file].forEach(check))] *)
Definition forEachFile
    (check : Element -> list string -> completion (list string))
    (jsonMetadata : Metadata) (key : string) (errors : list string)
  : completion (list string) :=
  match lookup key jsonMetadata with
  | None => Throw TypeError
  | Some files =>
      forEach
        (fun file errors =>
           match lookup file files with
           | Some (Some elements) => forEach check elements errors
           | _ => Throw TypeError
           end)
        (keys files) errors
  end.

(** The callback of [Object.keys(jsonMetadata).forEach] (lines 218-280). *)
Definition checkCategory (jsonMetadata : Metadata) (key : string)
    (errors : list string) : completion (list string) :=
  if String.eqb key "tokens" then
    forEachFile checkToken jsonMetadata key errors
  else if String.eqb key "validators" then
    forEachFile checkValidator jsonMetadata key errors
  else if String.eqb key "vaults" then
    forEachFile checkVault jsonMetadata key errors
  else Normal errors.

(** Lines 216-280: the errors the cross-check accumulates. *)
Definition metadataErrors (jsonMetadata : Metadata)
  : completion (list string) :=
  forEach (checkCategory jsonMetadata) (keys jsonMetadata) [].

(** [validateMetadataImages()], from [jsonMetadata] on; it returns what
    it wrote with [console.warn]. *)
Definition validateMetadataImages (jsonMetadata : Metadata)
  : completion (list string) :=
  errors <- metadataErrors jsonMetadata ;;
  if (0 <? List.length errors)%nat then
    Normal ((showNat (List.length errors) +++ " Errors found in metadata:")
            :: map yellow errors)
  else Normal [].

(** *** Initialize

    How the process ends: with an exit status and what it wrote, or on
    an uncaught exception (Node then exits with status 1). *)
Inductive Run : Type :=
| Exited (code : Z) (console : list string)
| Uncaught (e : exn).

Definition exitStatus (r : Run) : Z :=
  match r with
  | Exited code _ => code
  | Uncaught _ => 1
  end.

Definition main (assets : list Dirent) (jsonMetadata : Metadata) : Run :=
  match validateAssetsImages assets with
  | ProcessExit code console => Exited code console
  | Throw e => Uncaught e
  | Normal _ =>
      match validateMetadataImages jsonMetadata with
      | ProcessExit code console => Exited code console
      | Throw e => Uncaught e
      | Normal console => Exited 0 console
      end
  end.

End Metadata.

End Script.

(** ** What the specification talks about *)

Module Spec.
Import JS Script.

(** The PNG signature [89 50 4E 47 0D 0A 1A 0A]. *)
Definition PNG_SIGNATURE : Buffer :=
  [x89; x50; x4e; x47; x0d; x0a; x1a; x0a].

(** The JPEG Start Of Image marker [FF D8]. *)
Definition JPEG_SOI : Buffer := [xff; xd8].

(** The unsigned integer the [n] bytes at offset [off] hold, most
    significant byte first. *)
Definition bigEndian (buffer : Buffer) (off n : nat) : Z :=
  fold_left (fun acc b => acc * 256 + u8 b) (firstn n (skipn off buffer)) 0.

Definition byteOf (z : Z) : byte :=
  match Byte.of_N (Z.to_N z) with
  | Some b => b
  | None => x00
  end.

(** The four bytes that encode [z], most significant first. *)
Definition uint32BE (z : Z) : Buffer :=
  [byteOf (z / 2 ^ 24); byteOf (z / 2 ^ 16 mod 256);
   byteOf (z / 2 ^ 8 mod 256); byteOf (z mod 256)].

(** The two bytes that encode [z], most significant first. *)
Definition uint16BE (z : Z) : Buffer :=
  [byteOf (z / 2 ^ 8); byteOf (z mod 256)].

(** The dimension rule: what makes an image fail it. *)
Definition DimensionFault (dimensions : option Dimensions) : Prop :=
  dimensions = None
  \/ exists d, dimensions = Some d
               /\ (width d < 1024 \/ height d < 1024 \/ width d <> height d).

Definition hexChars : list ascii :=
  list_ascii_of_string "0123456789abcdefABCDEF".

(** [0x] followed by exactly [n] hexadecimal digits, letters in either
    case. *)
Definition HexAddress (n : nat) (s : string) : Prop :=
  exists x digits,
    s = String "0" (String x digits)
    /\ (x = "x"%char \/ x = "X"%char)
    /\ String.length digits = n
    /\ Forall (fun c => In c hexChars) (list_ascii_of_string digits).


(** The traversal of [entries], the listing of [dirPath], started with
    [errors] accumulated, gets to a file [name] that lies in directory
    [dir]: every entry listed before it was processed and returned.
    The file holds [content], or is one that cannot be read. *)
Inductive Encounters (name : string) (content : Buffer)
  : string -> list Dirent -> list string -> string -> Prop :=
| enc_here dirPath rest errors :
    Encounters name content dirPath (File name content :: rest) errors dirPath
| enc_unreadable dirPath rest errors :
    Encounters name content dirPath (Unreadable name false :: rest) errors
      dirPath
| enc_inside dirPath sub entries rest errors dir :
    Encounters name content (join dirPath sub) entries errors dir ->
    Encounters name content dirPath (Directory sub entries :: rest) errors dir
| enc_later dirPath entry rest errors errors' dir :
    processEntry dirPath entry errors = Normal errors' ->
    Encounters name content dirPath rest errors' dir ->
    Encounters name content dirPath (entry :: rest) errors dir.

(** The metadata root, seen from the directory of the script (as line
    173 names it). *)
Definition metadataRoot (dirname : string) : string :=
  pathJoin dirname ("../" +++ METADATA_FOLDER).

(** The file [assets/<folder>/<ident><ext>] of the metadata root. *)
Definition assetPath (dirname folder ident ext : string) : string :=
  metadataRoot dirname +++ "/assets/" +++ folder +++ "/" +++ ident +++ ext.


(** An identifier that names a file below the folder it is looked up
    in: between its separators, if it has any, stand names, none of
    them empty, [.] or [..]. *)
Definition plainSegment (seg : string) : bool :=
  negb (String.eqb seg "") && negb (String.eqb seg ".")
  && negb (String.eqb seg "..").

Definition plainPath (ident : string) : bool :=
  forallb plainSegment (segments ident).

(** The identifier of an element, as text: none for [null] and for a
    field that cannot be written. *)
Definition identifier (field : Entity -> Field) (e : Element)
  : option string :=
  match e with
  | Null => None
  | Value fields =>
      match field fields with
      | Undefined => Some "undefined"
      | Text text => Some text
      | NoText => None
      end
  end.

(** The identifiers of the elements of an array, when each has one. *)
Fixpoint identifiers (field : Entity -> Field) (elements : list Element)
  : option (list string) :=
  match elements with
  | [] => Some []
  | e :: rest =>
      match identifier field e, identifiers field rest with
      | Some ident, Some idents => Some (ident :: idents)
      | _, _ => None
      end
  end.

(** The identifiers of a category, file after file, when every file
    holds an array and every element has an identifier. *)
Fixpoint identifiersOf (field : Entity -> Field)
    (files : list (string * Content)) : option (list string) :=
  match files with
  | [] => Some []
  | (_, content) :: rest =>
      match content with
      | Some elements =>
          match identifiers field elements, identifiersOf field rest with
          | Some first, Some others => Some (first ++ others)
          | _, _ => None
          end
      | None => None
      end
  end.

(** The categories the cross-check knows, and the field it reads in
    the elements of each. *)
Definition knownCategory (key : string) : bool :=
  String.eqb key "tokens" || String.eqb key "validators"
  || String.eqb key "vaults".




(** A call that does not end in [process.exit]. *)
Definition NoExit {A} (m : completion A) : Prop :=
  forall code console, m <> ProcessExit code console.

(** The segment scan, started at offset [i], gets to a Start Of Frame
    marker at offset [k]: every marker before it is followed by a
    readable length and is stepped over by that length plus 2. *)
Inductive ScanReaches (buffer : Buffer) : Z -> Z -> Prop :=
| scan_frame i :
    0 <= i -> i + 9 <= length buffer ->
    isStartOfFrame buffer i = true ->
    ScanReaches buffer i i
| scan_segment i k :
    0 <= i -> i + 4 <= length buffer ->
    isStartOfFrame buffer i = false ->
    ScanReaches buffer (i + bigEndian buffer (Z.to_nat (i + 2)) 2 + 2) k ->
    ScanReaches buffer i k.

(** *** Sample files *)

(** A 24-byte file: PNG signature, IHDR chunk header, 1024 x 1024. *)
Definition png1024 : Buffer :=
  PNG_SIGNATURE ++ [x00; x00; x00; x0d; x49; x48; x44; x52]
  ++ uint32BE 1024 ++ uint32BE 1024.

(** A JPEG file: SOI, an APP0 segment of declared length 4, then a
    baseline Start Of Frame with height 1024 and width 768. *)
Definition jpeg768x1024 : Buffer :=
  JPEG_SOI ++ [xff; xe0; x00; x04; x00; x00]
  ++ [xff; xc0; x00; x11; x08] ++ uint16BE 1024 ++ uint16BE 768.

(** A 24-byte PNG header that declares 8 x 8. *)
Definition png8 : Buffer :=
  PNG_SIGNATURE ++ [x00; x00; x00; x0d; x49; x48; x44; x52]
  ++ uint32BE 8 ++ uint32BE 8.

(** The same header followed by eight zero bytes. *)
Definition png8padded : Buffer :=
  png8 ++ [x00; x00; x00; x00; x00; x00; x00; x00].

(** A 24-byte PNG header that declares 1 x 22. *)
Definition png1x22 : Buffer :=
  PNG_SIGNATURE ++ [x00; x00; x00; x0d; x49; x48; x44; x52]
  ++ uint32BE 1 ++ uint32BE 22.

(** An assets folder: [tokens] holds an unreadable image, a text file
    and a PNG header. *)
Definition assetsWithNotes : list Dirent :=
  [Directory "tokens"
     [File "a.jpg" []; File "notes.txt" []; File "b.png" png8]].

Definition hex40 : string := "0123456789abcdefABCDEF0123456789abcdefAB".

(** An entity with the given fields. *)
Definition entity (address id stakingTokenAddress : Field) : Element :=
  Value {| address := address; id := id;
           stakingTokenAddress := stakingTokenAddress |}.

(** [tokens/list.json] with one token and one more without address,
    [vaults/list.json] with one vault, and a category the script does
    not know. *)
Definition sampleMetadata : Metadata :=
  [("tokens",
    [("list.json",
      Some [entity (Text ("0x" +++ hex40)) Undefined Undefined;
            entity Undefined Undefined Undefined])]);
   ("pools", [("list.json", None)]);
   ("vaults",
    [("list.json",
      Some [entity Undefined Undefined (Text ("0x" +++ hex40))])])].

(** A file system that holds the PNG of the sample token only. *)
Definition sampleExists (path : string) : bool :=
  String.eqb path (assetPath "/repo/scripts" "tokens" ("0x" +++ hex40) ".png").




End Spec.

(** ** The script, continued: loading the metadata (lines 171-214) *)

Module Loader.
Import JS Script.

(** *** Objects

    An object is the list of its own entries in [Object.keys] order:
    keys that are array indices first, in ascending numeric order, then
    the other keys in the order of their creation. *)

Definition isDigit (c : ascii) : bool :=
  let n := nat_of_ascii c in ((48 <=? n) && (n <=? 57))%nat.

Fixpoint allDigits (s : string) : bool :=
  match s with
  | EmptyString => true
  | String c s' => isDigit c && allDigits s'
  end.

Fixpoint decimalValue (acc : N) (s : string) : N :=
  match s with
  | EmptyString => acc
  | String c s' =>
      decimalValue (acc * 10 + N.of_nat (nat_of_ascii c - 48)) s'
  end.

(** The array index a key denotes: a canonical decimal numeral below
    [2^32 - 1]. *)
Definition arrayIndex (key : string) : option N :=
  match key with
  | EmptyString => None
  | String c rest =>
      if allDigits key
         && (negb (Ascii.eqb c "0"%char) || String.eqb rest "")
         && (decimalValue 0 key <? 4294967295)%N
      then Some (decimalValue 0 key)
      else None
  end.

Fixpoint hasOwn {A} (key : string) (obj : list (string * A)) : bool :=
  match obj with
  | [] => false
  | (k, _) :: rest => String.eqb key k || hasOwn key rest
  end.

(** Assignment to a property the object has: the value changes, the
    place of the key does not. *)
Fixpoint replaceValue {A} (key : string) (v : A) (obj : list (string * A))
  : list (string * A) :=
  match obj with
  | [] => []
  | (k, x) :: rest =>
      if String.eqb key k then (k, v) :: rest
      else (k, x) :: replaceValue key v rest
  end.

(** A new array-index key goes before the first key that is a greater
    index or no index at all. *)
Fixpoint insertIndexed {A} (n : N) (key : string) (v : A)
    (obj : list (string * A)) : list (string * A) :=
  match obj with
  | [] => [(key, v)]
  | (k, x) :: rest =>
      match arrayIndex k with
      | Some m =>
          if (n <? m)%N then (key, v) :: obj
          else (k, x) :: insertIndexed n key v rest
      | None => (key, v) :: obj
      end
  end.

(** [obj[key] = v] *)
Definition setProperty {A} (key : string) (v : A) (obj : list (string * A))
  : list (string * A) :=
  if hasOwn key obj then replaceValue key v obj
  else match arrayIndex key with
       | Some n => insertIndexed n key v obj
       | None => obj ++ [(key, v)]
       end.

(** The properties an empty object literal inherits from
    [Object.prototype] as Node sets it up; each of them reads as a
    function, [__proto__] as [Object.prototype] itself, so all are
    truthy. *)
Definition objectPrototypeKeys : list string :=
  ["constructor"; "__defineGetter__"; "__defineSetter__"; "hasOwnProperty";
   "__lookupGetter__"; "__lookupSetter__"; "isPrototypeOf";
   "propertyIsEnumerable"; "toString"; "valueOf"; "__proto__";
   "toLocaleString"].

Definition inherited (key : string) : bool :=
  arrayIncludes objectPrototypeKeys key.

(** [s.endsWith(suffix)] *)
Definition endsWith (suffix s : string) : bool :=
  (String.length suffix <=? String.length s)%nat
  && String.eqb (drop (String.length s - String.length suffix) s) suffix.

(** *** The directory listings

    An entry of a category folder: a regular file with its text, or
    anything else. *)
Inductive FolderEntry : Type :=
| RegularFile (name text : string)
| OtherEntry (name : string).

(** An entry of the metadata root: a directory with its listing, or
    anything else. *)
Inductive RootEntry : Type :=
| Folder (name : string) (listing : list FolderEntry)
| NonFolder (name : string).

Definition entryName (e : FolderEntry) : string :=
  match e with
  | RegularFile name _ => name
  | OtherEntry name => name
  end.

(** [folders]: the names of the directories of the root that are not
    excluded (lines 172-180). *)
Definition folders (root : list RootEntry) : list string :=
  flat_map
    (fun entry =>
       match entry with
       | Folder name _ =>
           if negb (arrayIncludes METADATA_FOLDER_EXCLUDED name)
           then [name] else []
       | NonFolder _ => []
       end) root.

(** [fs.readdirSync] of the folder called [folder]. *)
Fixpoint listingOf (root : list RootEntry) (folder : string)
  : list FolderEntry :=
  match root with
  | [] => []
  | Folder name listing :: rest =>
      if String.eqb folder name then listing else listingOf rest folder
  | NonFolder _ :: rest => listingOf rest folder
  end.

(** [entry.isFile() && entry.name.endsWith(".json")] *)
Definition isJsonFile (e : FolderEntry) : bool :=
  match e with
  | RegularFile name _ => endsWith ".json" name
  | OtherEntry _ => false
  end.

Section Load.

(** [JSON.parse] on the text of a file, [None] when it raises a
    SyntaxError; and [doc?.[folder]], seen as the value the checks
    work on. *)
Variable Doc : Type.
Variable JSONparse : string -> option Doc.
Variable property : Doc -> string -> Content.

(** Lines 203-206: create the category on its first file, then store
    the content under the file name.  A folder that bears the name of
    an inherited property finds that property instead and never becomes
    a key of [jsonMetadata]; line 206 then stores the content in the
    function it found, where the script never looks again.

    One folder name is different: under [__proto__] line 206 finds
    [Object.prototype] itself and adds the file name to the properties
    that every object inherits from then on.  This is not followed
    here: [Object.prototype] is taken as Node sets it up, so the loader
    is described for a root that has no folder called [__proto__], and
    the properties that depend on which names are inherited say so. *)
Definition storeFile (folder name : string) (content : Content)
    (jsonMetadata : Metadata) : Metadata :=
  match lookup folder jsonMetadata with
  | Some files =>
      setProperty folder (setProperty name content files) jsonMetadata
  | None =>
      if inherited folder then jsonMetadata
      else setProperty folder (setProperty name content []) jsonMetadata
  end.

(** The callback of [.map] (lines 194-213) over the filtered listing of
    one folder; [None] is the SyntaxError of [JSON.parse]. *)
Fixpoint loadFiles (folder : string) (entries : list FolderEntry)
    (jsonMetadata : Metadata) : option Metadata :=
  match entries with
  | [] => Some jsonMetadata
  | entry :: rest =>
      match entry with
      | RegularFile name text =>
          match JSONparse text with
          | None => None
          | Some doc =>
              loadFiles folder rest
                (storeFile folder name (property doc folder) jsonMetadata)
          end
      | OtherEntry _ => loadFiles folder rest jsonMetadata
      end
  end.

(** [for (const folder of folders)] (lines 189-214). *)
Fixpoint loadFolders (root : list RootEntry) (names : list string)
    (jsonMetadata : Metadata) : option Metadata :=
  match names with
  | [] => Some jsonMetadata
  | folder :: rest =>
      match loadFiles folder (filter isJsonFile (listingOf root folder))
              jsonMetadata with
      | None => None
      | Some jsonMetadata => loadFolders root rest jsonMetadata
      end
  end.

(** [jsonMetadata] as line 216 finds it. *)
Definition loadMetadata (root : list RootEntry) : option Metadata :=
  loadFolders root (folders root) [].

End Load.

End Loader.

(** ** Further notions and sample data *)

Module Notions.
Import JS Script Spec Loader.

(** The number of files in a listing, subdirectories included. *)
Fixpoint countFiles (entry : Dirent) : nat :=
  match entry with
  | File _ _ => 1%nat
  | Directory _ entries =>
      (fix go (entries : list Dirent) : nat :=
         match entries with
         | [] => O
         | entry :: rest => (countFiles entry + go rest)%nat
         end) entries
  | Unreadable _ isDirectory => if isDirectory then O else 1%nat
  end.

Fixpoint countAll (entries : list Dirent) : nat :=
  match entries with
  | [] => O
  | entry :: rest => (countFiles entry + countAll rest)%nat
  end.

(** A tree in which everything can be read. *)
Fixpoint readable (entry : Dirent) : bool :=
  match entry with
  | File _ _ => true
  | Directory _ entries =>
      (fix go (entries : list Dirent) : bool :=
         match entries with
         | [] => true
         | entry :: rest => readable entry && go rest
         end) entries
  | Unreadable _ _ => false
  end.

Definition allReadable (entries : list Dirent) : bool :=
  forallb readable entries.

(** What processing [n] files, started with [errors], can end in: more
    errors, at most three per file; the RangeError of a Buffer read, or
    the error of the file system when [unreadable] entries are about;
    or [process.exit(1)] after the one line for an unsupported file. *)
Definition Accumulates (n : nat) (unreadable : bool) (errors : list string)
    (r : completion (list string)) : Prop :=
  match r with
  | Normal errors' =>
      exists added,
        errors' = errors ++ added /\ (List.length added <= 3 * n)%nat
  | Throw e => e = RangeError \/ (e = SystemError /\ unreadable = true)
  | ProcessExit code console =>
      code = 1 /\ exists path, console = [unsupportedFileType path]
  end.

(** Induction on a directory tree. *)
Fixpoint Dirent_tree_ind (P : Dirent -> Prop)
    (HFile : forall name content, P (File name content))
    (HDir : forall name entries, Forall P entries -> P (Directory name entries))
    (HUnreadable : forall name isDirectory, P (Unreadable name isDirectory))
    (entry : Dirent) : P entry :=
  match entry with
  | File name content => HFile name content
  | Directory name entries =>
      HDir name entries
        ((fix go (entries : list Dirent) : Forall P entries :=
            match entries with
            | [] => Forall_nil P
            | e :: rest =>
                Forall_cons e (Dirent_tree_ind P HFile HDir HUnreadable e)
                  (go rest)
            end) entries)
  | Unreadable name isDirectory => HUnreadable name isDirectory
  end.

(** An entry the traversal passes over: a file on the allow list,
    whether it can be read or not, or a directory that holds nothing
    else. *)
#[warnings="-register-all"]
Inductive Inert : Dirent -> Prop :=
| inert_file name content :
    allowListed name = true -> Inert (File name content)
| inert_unreadable name :
    allowListed name = true -> Inert (Unreadable name false)
| inert_directory name entries :
    Forall Inert entries -> Inert (Directory name entries).

(** A three-byte file: the JPEG marker and one more byte. *)
Definition jpegStub : Buffer := JPEG_SOI ++ [xff].

(** The test the three callbacks of the cross-check make for one
    identifier: none of the three image files is found at the path that
    [path.join] makes of the assets folder and the identifier. *)
Definition imageMissing (existsSync : string -> bool)
    (dirname folder ident : string) : bool :=
  noImage existsSync
    (pathJoin dirname
       ("../" +++ METADATA_FOLDER +++ "/assets/" +++ folder +++ "/"
        +++ ident)).

(** What the three callbacks have in common: an element without an
    identifier raises a TypeError, any other is looked up in one folder
    and adds one message when no image is found. *)
Definition Checks (existsSync : string -> bool) (dirname : string)
    (check : Element -> list string -> completion (list string))
    (folder : string) (field : Entity -> Field) (msg : string -> string)
  : Prop :=
  forall e errors,
    check e errors
    = match identifier field e with
      | Some ident =>
          Normal (if imageMissing existsSync dirname folder ident
                  then errors ++ [msg ident] else errors)
      | None => Throw TypeError
      end.

(** What a run of callbacks ends in: the messages added to [errors], or
    a TypeError when there are none to give. *)
Definition pushed (errors : list string) (added : option (list string))
  : completion (list string) :=
  match added with
  | Some messages => Normal (errors ++ messages)
  | None => Throw TypeError
  end.

(** The messages for a list of identifiers: one for each that has no
    image. *)
Definition messagesFor (existsSync : string -> bool)
    (dirname folder : string) (msg : string -> string)
    (idents : list string) : list string :=
  map msg (filter (imageMissing existsSync dirname folder) idents).

(** The messages one category adds: one per element without an image,
    in file and element order; [None] when a file of a known category
    holds no array or an element has no identifier. *)
Definition categoryErrors (existsSync : string -> bool) (dirname : string)
    (key : string) (files : list (string * Content))
  : option (list string) :=
  if String.eqb key "tokens" then
    option_map (messagesFor existsSync dirname "tokens" tokenNotFound)
      (identifiersOf address files)
  else if String.eqb key "validators" then
    option_map (messagesFor existsSync dirname "validators" validatorNotFound)
      (identifiersOf id files)
  else if String.eqb key "vaults" then
    option_map (messagesFor existsSync dirname "tokens" vaultNotFound)
      (identifiersOf stakingTokenAddress files)
  else Some [].

(** The messages of all categories, in key order. *)
Fixpoint passErrors (existsSync : string -> bool) (dirname : string)
    (jsonMetadata : Metadata) : option (list string) :=
  match jsonMetadata with
  | [] => Some []
  | (key, files) :: rest =>
      match categoryErrors existsSync dirname key files,
            passErrors existsSync dirname rest with
      | Some first, Some others => Some (first ++ others)
      | _, _ => None
      end
  end.

(** What [validateMetadataImages] prints for a list of warnings. *)
Definition printed (warnings : list string) : list string :=
  match warnings with
  | [] => []
  | _ :: _ => (showNat (List.length warnings) +++ " Errors found in metadata:")
              :: map yellow warnings
  end.

(** A call that returns or raises a TypeError. *)
Definition ReturnsOrTypeError {A} (m : completion A) : Prop :=
  (exists a, m = Normal a) \/ m = Throw TypeError.

(** The files stored for a category, none when it is not a key. *)
Definition filesOf (jsonMetadata : Metadata) (key : string)
  : list (string * Content) :=
  match lookup key jsonMetadata with
  | Some files => files
  | None => []
  end.

(** What a loaded object satisfies: no key twice, no key that names an
    inherited property, and under every key at least one file and no
    file name twice. *)
Definition WellKeyed (jsonMetadata : Metadata) : Prop :=
  NoDup (keys jsonMetadata)
  /\ forall key files,
       lookup key jsonMetadata = Some files ->
       inherited key = false /\ NoDup (keys files) /\ files <> [].

(** The entry a [.json] file of folder [folder] is stored as: its name
    and the value found under the folder's name in its document. *)
Definition loadedFile (Doc : Type) (JSONparse : string -> option Doc)
    (property : Doc -> string -> Content) (folder : string)
    (entry : FolderEntry) : string * Content :=
  (entryName entry,
   match entry with
   | RegularFile _ text =>
       match JSONparse text with
       | Some doc => property doc folder
       | None => None
       end
   | OtherEntry _ => None
   end).

(** A metadata root: the assets folder, a stray file, [tokens] with two
    JSON files and a text file, and an empty [vaults]. *)
Definition sampleRoot : list RootEntry :=
  [Folder "assets" [RegularFile "broken.json" "{"];
   NonFolder "README.md";
   Folder "tokens"
     [RegularFile "mainnet.json" "with address";
      RegularFile "notes.txt" "{";
      OtherEntry "old.json";
      RegularFile "testnet.json" "without address"];
   Folder "vaults" []].

(** A stand-in for [JSON.parse]: every text but [{] parses, to itself. *)
Definition sampleParse (text : string) : option string :=
  if String.eqb text "{" then None else Some text.

(** A stand-in for the property read: the document [with address] holds
    one token with the sample address under [tokens], the document
    [without address] one token without address; nothing else holds an
    array. *)
Definition sampleProperty (doc folder : string) : Content :=
  if String.eqb folder "tokens" then
    if String.eqb doc "with address" then
      Some [entity (Text ("0x" +++ hex40)) Undefined Undefined]
    else if String.eqb doc "without address" then
      Some [entity Undefined Undefined Undefined]
    else None
  else None.

(** A 24-byte PNG header that declares 0 x 0. *)
Definition png0 : Buffer :=
  PNG_SIGNATURE ++ [x00; x00; x00; x0d; x49; x48; x44; x52]
  ++ uint32BE 0 ++ uint32BE 0.

(** A PNG header that declares 1024 x 1024, followed by 1100 bytes
    [01]. *)
Definition png1024filled : Buffer :=
  png1024 ++ repeat x01 1100.

End Notions.

(** ** Properties *)

Import JS Script Spec Loader Notions.

(** Closed goals: equations and comparisons between computed values. *)
Ltac by_computation :=
  vm_compute;
  repeat match goal with |- _ /\ _ => split end;
  first [reflexivity | (let K := fresh in intros K; discriminate K)].

(** *** Runtime lemmas *)

Lemma u8_range (b : byte) : 0 <= u8 b < 256.
Proof.
  unfold u8. pose proof (Byte.to_N_bounded b). lia.
Qed.

Lemma u8_byteOf (z : Z) : 0 <= z < 256 -> u8 (byteOf z) = z.
Proof.
  intros Hz. unfold u8, byteOf.
  destruct (Byte.of_N (Z.to_N z)) as [b|] eqn:E.
  - apply Byte.to_of_N in E. rewrite E. lia.
  - apply Byte.of_N_None_iff in E. lia.
Qed.

Lemma length_toStringHex (buffer : Buffer) :
  String.length (toStringHex buffer) = (2 * List.length buffer)%nat.
Proof.
  induction buffer as [|b rest IH]; simpl; [reflexivity|].
  rewrite IH. lia.
Qed.

Lemma at_inside (buffer : Buffer) (i : Z) :
  0 <= i < length buffer ->
  exists b, nth_error buffer (Z.to_nat i) = Some b /\ at_ buffer i = Some (u8 b).
Proof.
  intros [Hlo Hhi]. unfold at_, length in *.
  destruct (i <? 0) eqn:E; [apply Z.ltb_lt in E; lia|].
  destruct (nth_error buffer (Z.to_nat i)) as [b|] eqn:Hn.
  - exists b. split; reflexivity.
  - apply nth_error_None in Hn. lia.
Qed.

Lemma at_outside (buffer : Buffer) (i : Z) :
  i < 0 \/ length buffer <= i -> at_ buffer i = None.
Proof.
  intros H. unfold at_, length in *.
  destruct (i <? 0) eqn:E; [reflexivity|].
  apply Z.ltb_ge in E.
  assert (Hn : nth_error buffer (Z.to_nat i) = None)
    by (apply nth_error_None; lia).
  rewrite Hn. reflexivity.
Qed.

(** A 32-bit read faults exactly when it does not fit in the buffer. *)
Lemma readUInt32BE_outside (buffer : Buffer) (offset : Z) :
  offset < 0 \/ length buffer - 4 < offset ->
  readUInt32BE buffer offset = Throw RangeError.
Proof.
  intros H. unfold readUInt32BE.
  destruct H as [H|H].
  - rewrite (at_outside buffer offset) by lia. reflexivity.
  - rewrite (at_outside buffer (offset + 3)) by lia.
    destruct (at_ buffer offset), (at_ buffer (offset + 1)),
      (at_ buffer (offset + 2)); reflexivity.
Qed.

Lemma readUInt32BE_inside (buffer : Buffer) (offset : Z) :
  0 <= offset <= length buffer - 4 ->
  exists word, readUInt32BE buffer offset = Normal word
               /\ word = bigEndian buffer (Z.to_nat offset) 4.
Proof.
  intros H. unfold readUInt32BE, bigEndian.
  destruct (at_inside buffer offset) as (b0 & N0 & ->); [lia|].
  destruct (at_inside buffer (offset + 1)) as (b1 & N1 & ->); [lia|].
  destruct (at_inside buffer (offset + 2)) as (b2 & N2 & ->); [lia|].
  destruct (at_inside buffer (offset + 3)) as (b3 & N3 & ->); [lia|].
  eexists. split; [reflexivity|].
  replace (Z.to_nat (offset + 1)) with (S (Z.to_nat offset)) in N1 by lia.
  replace (Z.to_nat (offset + 2)) with (S (S (Z.to_nat offset))) in N2 by lia.
  replace (Z.to_nat (offset + 3)) with (S (S (S (Z.to_nat offset)))) in N3
    by lia.
  revert N0 N1 N2 N3. generalize (Z.to_nat offset) as n. clear H.
  induction buffer as [|x buffer IH]; intros n N0 N1 N2 N3.
  - destruct n; discriminate.
  - destruct n as [|n].
    + destruct buffer as [|y [|z [|t rest]]]; try discriminate.
      simpl in *. injection N0 as ->. injection N1 as ->.
      injection N2 as ->. injection N3 as ->. lia.
    + simpl in *. apply IH; assumption.
Qed.

(** *** The signature checks *)

Lemma hexDigit_inj (m n : Z) :
  0 <= m < 16 -> 0 <= n < 16 -> hexDigit m = hexDigit n -> m = n.
Proof.
  intros Hm Hn. unfold hexDigit.
  assert (Ha : (Z.to_nat m < 16)%nat) by lia.
  assert (Hb : (Z.to_nat n < 16)%nat) by lia.
  intros E. apply Z2Nat.inj; try lia.
  revert Ha Hb E.
  generalize (Z.to_nat m) as a, (Z.to_nat n) as b. intros a b Ha Hb.
  do 16 (destruct a as [|a];
         [do 16 (destruct b as [|b];
                 [first [reflexivity | discriminate]|]); lia|]).
  lia.
Qed.

Lemma hexOfByte_inj (a b : byte) : hexOfByte a = hexOfByte b -> a = b.
Proof.
  unfold hexOfByte. intros E. injection E as Ehi Elo.
  pose proof (u8_range a) as Ra. pose proof (u8_range b) as Rb.
  apply hexDigit_inj in Ehi;
    [|split; [apply Z.div_pos; lia | apply Z.div_lt_upper_bound; lia]..].
  apply hexDigit_inj in Elo; [|apply Z.mod_pos_bound; lia..].
  assert (E : u8 a = u8 b).
  { rewrite (Z.div_mod (u8 a) 16), (Z.div_mod (u8 b) 16) by lia.
    rewrite Ehi, Elo. reflexivity. }
  unfold u8 in E. apply N2Z.inj in E.
  assert (Some a = Some b) as [= ->]
    by (rewrite <- (Byte.of_to_N a), <- (Byte.of_to_N b), E; reflexivity).
  reflexivity.
Qed.

Lemma toStringHex_inj (a b : Buffer) :
  toStringHex a = toStringHex b -> a = b.
Proof.
  revert b. induction a as [|x a IH]; intros [|y b] E; try discriminate.
  - reflexivity.
  - simpl in E. injection E as E1 E2 E3.
    f_equal.
    + apply hexOfByte_inj. unfold hexOfByte. congruence.
    + apply IH. assumption.
Qed.

(** The PNG test of line 25 succeeds exactly on the buffers that start
    with the signature. *)
Lemma png_check_iff (buffer : Buffer) :
  String.eqb (toStringHex (slice0 8 buffer)) "89504e470d0a1a0a" = true
  <-> firstn 8 buffer = PNG_SIGNATURE.
Proof.
  unfold slice0. rewrite String.eqb_eq. split; intros H.
  - apply toStringHex_inj. rewrite H. reflexivity.
  - rewrite H. reflexivity.
Qed.

(** The JPG test of line 34 compares a string of at most four hex
    digits with the five characters [ff d8]: it never succeeds. *)
Lemma jpg_check_false (buffer : Buffer) :
  String.eqb (toStringHex (slice0 2 buffer)) "ff d8" = false.
Proof.
  apply String.eqb_neq. intros E.
  apply (f_equal String.length) in E.
  rewrite length_toStringHex in E. unfold slice0 in E.
  pose proof (firstn_le_length 2 buffer) as L.
  simpl in E. lia.
Qed.

(** Whatever does not carry the PNG signature is reported as "not an
    image". *)
Lemma getImageDimensions_not_png (buffer : Buffer) :
  firstn 8 buffer <> PNG_SIGNATURE ->
  getImageDimensions buffer = Normal None.
Proof.
  intros H. unfold getImageDimensions.
  destruct (String.eqb (toStringHex (slice0 8 buffer)) "89504e470d0a1a0a")
    eqn:E.
  - apply png_check_iff in E. contradiction.
  - rewrite jpg_check_false. reflexivity.
Qed.

Lemma getImageDimensions_png (buffer : Buffer) :
  firstn 8 buffer = PNG_SIGNATURE ->
  getImageDimensions buffer =
    (width <- readUInt32BE buffer 16 ;;
     height <- readUInt32BE buffer 20 ;;
     Normal (Some {| width := width; height := height |})).
Proof.
  intros H. unfold getImageDimensions.
  apply png_check_iff in H. rewrite H. reflexivity.
Qed.

Lemma bigEndian_uint32BE (buffer : Buffer) (off : nat) (z : Z) :
  0 <= z < 2 ^ 32 ->
  firstn 4 (skipn off buffer) = uint32BE z ->
  bigEndian buffer off 4 = z.
Proof.
  intros Hz E. unfold bigEndian. rewrite E. unfold uint32BE.
  assert (H24 : 0 <= z / 2 ^ 24 < 256)
    by (split; [apply Z.div_pos; lia | apply Z.div_lt_upper_bound; lia]).
  cbn [fold_left].
  rewrite !u8_byteOf; try assumption; try (apply Z.mod_pos_bound; lia).
  replace (z / 2 ^ 24) with (z / 256 / 256 / 256)
    by (rewrite !Z.div_div by lia; reflexivity).
  replace (z / 2 ^ 16) with (z / 256 / 256)
    by (rewrite !Z.div_div by lia; reflexivity).
  change (2 ^ 8) with 256.
  pose proof (Z.div_mod z 256 ltac:(lia)) as D0.
  pose proof (Z.div_mod (z / 256) 256 ltac:(lia)) as D1.
  pose proof (Z.div_mod (z / 256 / 256) 256 ltac:(lia)) as D2.
  lia.
Qed.

(** *** getImageDimensions *)

(** C1: a buffer that starts with the PNG signature and holds the
    big-endian encodings of [w] and [h] (any unsigned 32-bit values) at
    offsets 16 and 20 yields width [w] and height [h], which are the
    big-endian 32-bit integers found at those offsets. *)
Theorem png_dimensions_big_endian (buffer : Buffer) (w h : Z) :
  0 <= w < 2 ^ 32 -> 0 <= h < 2 ^ 32 ->
  firstn 8 buffer = PNG_SIGNATURE ->
  firstn 4 (skipn 16 buffer) = uint32BE w ->
  firstn 4 (skipn 20 buffer) = uint32BE h ->
  getImageDimensions buffer = Normal (Some {| width := w; height := h |})
  /\ w = bigEndian buffer 16 4 /\ h = bigEndian buffer 20 4.
Proof.
  intros Hw Hh Hsig Ew Eh.
  assert (Hlen : 24 <= length buffer).
  { apply (f_equal (@List.length byte)) in Eh.
    rewrite length_firstn, length_skipn in Eh.
    change (List.length (uint32BE h)) with 4%nat in Eh.
    unfold length. lia. }
  pose proof (bigEndian_uint32BE buffer 16 w Hw Ew) as Bw.
  pose proof (bigEndian_uint32BE buffer 20 h Hh Eh) as Bh.
  split; [|split; congruence].
  rewrite (getImageDimensions_png buffer Hsig).
  destruct (readUInt32BE_inside buffer 16) as (x & -> & Hx); [lia|].
  destruct (readUInt32BE_inside buffer 20) as (y & -> & Hy); [lia|].
  change (Z.to_nat 16) with 16%nat in Hx.
  change (Z.to_nat 20) with 20%nat in Hy.
  unfold bind. congruence.
Qed.

Lemma png_dimensions_big_endian_witness :
  getImageDimensions png1024
  = Normal (Some {| width := 1024; height := 1024 |})
  /\ 1024 = bigEndian png1024 16 4 /\ 1024 = bigEndian png1024 20 4.
Proof.
  apply (png_dimensions_big_endian png1024 1024 1024);
    first [lia | reflexivity].
Defined.

(** The loop of the JPG branch, one turn at a time. *)
Lemma jpegScan_unfold (buffer : Buffer) (i : Z) :
  jpegScan buffer i =
    if i <? length buffer then
      segmentLength <- readUInt16BE buffer (i + 2) ;;
      if isStartOfFrame buffer i then
        height <- readUInt16BE buffer (i + 5) ;;
        width <- readUInt16BE buffer (i + 7) ;;
        Normal (Some {| width := width; height := height |})
      else jpegScan buffer (i + segmentLength + 2)
    else Normal None.
Proof.
  funelim (jpegScan buffer i);
    try (destruct (Z.ltb_spec i (length buffer)); [|lia]);
    try (destruct (Z.ltb_spec i (length buffer)); [lia|]);
    try match goal with
        | E : readUInt16BE _ _ = _ |- _ => rewrite E
        end;
    reflexivity.
Qed.

Lemma readUInt16BE_inside (buffer : Buffer) (offset : Z) :
  0 <= offset <= length buffer - 2 ->
  readUInt16BE buffer offset
  = Normal (bigEndian buffer (Z.to_nat offset) 2).
Proof.
  intros H. unfold readUInt16BE, bigEndian.
  destruct (at_inside buffer offset) as (b0 & N0 & ->); [lia|].
  destruct (at_inside buffer (offset + 1)) as (b1 & N1 & ->); [lia|].
  f_equal.
  replace (Z.to_nat (offset + 1)) with (S (Z.to_nat offset)) in N1 by lia.
  revert N0 N1. generalize (Z.to_nat offset) as n. clear H.
  induction buffer as [|x buffer IH]; intros n N0 N1.
  - destruct n; discriminate.
  - destruct n as [|n].
    + destruct buffer as [|y rest]; try discriminate.
      simpl in *. injection N0 as ->. injection N1 as ->. lia.
    + simpl in *. apply IH; assumption.
Qed.

(** Once entered, the scan does what the JPEG layout asks for: it steps
    over the segments before the first Start Of Frame marker and
    returns the 16-bit values at marker offsets 5 and 7. *)
Lemma jpegScan_reaches (buffer : Buffer) (i k : Z) :
  ScanReaches buffer i k ->
  jpegScan buffer i
  = Normal (Some {| width := bigEndian buffer (Z.to_nat (k + 7)) 2;
                    height := bigEndian buffer (Z.to_nat (k + 5)) 2 |}).
Proof.
  induction 1 as [i Hi Hlen Hsof | i k Hi Hlen Hsof _ IH];
    rewrite jpegScan_unfold;
    (destruct (Z.ltb_spec i (length buffer)); [|lia]);
    rewrite (readUInt16BE_inside buffer (i + 2)) by lia;
    cbn [bind]; rewrite Hsof.
  - rewrite !readUInt16BE_inside by lia. reflexivity.
  - assumption.
Qed.

(** C2: the reader does not recognise JPEG files.  A buffer that starts
    with [FF D8] is reported as "not an image" whatever follows, because
    the test of line 34 compares the hex dump of the first two bytes
    with a string that has a space in it; the segment scan is never
    entered. *)
Theorem jpeg_signature_not_recognised (buffer : Buffer) :
  firstn 2 buffer = JPEG_SOI ->
  getImageDimensions buffer = Normal None.
Proof.
  intros H. apply getImageDimensions_not_png.
  destruct buffer as [|b0 [|b1 rest]]; try discriminate.
  injection H as -> ->. discriminate.
Qed.

Lemma jpeg_signature_not_recognised_witness :
  getImageDimensions jpeg768x1024 = Normal None.
Proof.
  apply (jpeg_signature_not_recognised jpeg768x1024). reflexivity.
Defined.

(** The scan itself, had it been entered at offset 2, finds the frame
    of the sample file behind the APP0 segment. *)
Lemma jpegScan_sample :
  ScanReaches jpeg768x1024 2 8
  /\ jpegScan jpeg768x1024 2
     = Normal (Some {| width := 768; height := 1024 |}).
Proof.
  split; [|reflexivity].
  apply scan_segment; [lia | by_computation | reflexivity |].
  apply scan_frame; [lia | by_computation | reflexivity].
Qed.

(** C3: the reader raises on a truncated PNG.  A buffer that carries the
    PNG signature and is shorter than 24 bytes makes one of the two
    32-bit reads fault: the call ends in a RangeError, not in [null]. *)
Theorem truncated_png_raises (buffer : Buffer) :
  firstn 8 buffer = PNG_SIGNATURE ->
  length buffer < 24 ->
  getImageDimensions buffer = Throw RangeError.
Proof.
  intros Hsig Hlen. rewrite (getImageDimensions_png buffer Hsig).
  destruct (Z_le_gt_dec 20 (length buffer)) as [H20|H20].
  - destruct (readUInt32BE_inside buffer 16) as (x & -> & _); [lia|].
    simpl. rewrite readUInt32BE_outside by lia. reflexivity.
  - rewrite readUInt32BE_outside by lia. reflexivity.
Qed.

Lemma truncated_png_raises_witness :
  getImageDimensions PNG_SIGNATURE = Throw RangeError.
Proof.
  apply (truncated_png_raises PNG_SIGNATURE); [reflexivity|].
  unfold length. simpl. lia.
Defined.

(** The reader on an arbitrary buffer: [null] without the PNG
    signature, the two big-endian words with it when the buffer has 24
    bytes, a RangeError with it otherwise. *)
Lemma getImageDimensions_cases (buffer : Buffer) :
  (firstn 8 buffer <> PNG_SIGNATURE
   /\ getImageDimensions buffer = Normal None)
  \/ (firstn 8 buffer = PNG_SIGNATURE /\ 24 <= length buffer
      /\ getImageDimensions buffer
         = Normal (Some {| width := bigEndian buffer 16 4;
                           height := bigEndian buffer 20 4 |}))
  \/ (firstn 8 buffer = PNG_SIGNATURE /\ length buffer < 24
      /\ getImageDimensions buffer = Throw RangeError).
Proof.
  destruct (list_eq_dec Byte.byte_eq_dec (firstn 8 buffer) PNG_SIGNATURE)
    as [Hsig|Hsig].
  - right. destruct (Z_lt_ge_dec (length buffer) 24) as [H|H].
    + right. split; [assumption|]. split; [assumption|].
      rewrite (getImageDimensions_png buffer Hsig).
      destruct (Z_le_gt_dec 20 (length buffer)) as [H20|H20].
      * destruct (readUInt32BE_inside buffer 16) as (x & -> & _); [lia|].
        simpl. rewrite readUInt32BE_outside by lia. reflexivity.
      * rewrite readUInt32BE_outside by lia. reflexivity.
    + left. split; [assumption|]. split; [lia|].
      rewrite (getImageDimensions_png buffer Hsig).
      destruct (readUInt32BE_inside buffer 16) as (x & -> & ->); [lia|].
      destruct (readUInt32BE_inside buffer 20) as (y & -> & ->); [lia|].
      reflexivity.
  - left. auto using getImageDimensions_not_png.
Qed.

(** *** Number arithmetic *)

Lemma roundToDouble_exact (z : Z) :
  Z.abs z < 2 ^ 53 -> roundToDouble z = z.
Proof.
  intros H. unfold roundToDouble.
  assert (L : Z.log2 (Z.abs z) < 53).
  { destruct (Z.eq_dec (Z.abs z) 0) as [E|E].
    - rewrite E. reflexivity.
    - apply Z.log2_lt_pow2; lia. }
  destruct (Z.log2 (Z.abs z) - 52 <=? 0) eqn:E; [reflexivity|].
  apply Z.leb_gt in E. lia.
Qed.

(** Rounding does not bring a number of at least [2^53] below it. *)
Lemma roundToDouble_large (z : Z) :
  2 ^ 53 <= z -> 2 ^ 53 <= roundToDouble z.
Proof.
  intros H. unfold roundToDouble.
  rewrite (Z.abs_eq z) by lia.
  destruct (Z.log2 z - 52 <=? 0) eqn:E; [assumption|].
  apply Z.leb_gt in E.
  set (e := Z.log2 z - 52) in *.
  assert (Hq : 2 ^ 52 <= z / 2 ^ e).
  { apply Z.div_le_lower_bound; [apply Z.pow_pos_nonneg; lia|].
    rewrite Z.mul_comm, <- Z.pow_add_r by lia.
    replace (52 + e) with (Z.log2 z) by (unfold e; lia).
    apply Z.log2_spec. lia. }
  assert (Hp : 2 <= 2 ^ e).
  { change 2 with (2 ^ 1) at 1. apply Z.pow_le_mono_r; lia. }
  rewrite (Z.sgn_pos z) by lia.
  assert (Hq' : 2 ^ 52 <=
                (if z mod 2 ^ e <? 2 ^ (e - 1) then z / 2 ^ e
                 else if 2 ^ (e - 1) <? z mod 2 ^ e then z / 2 ^ e + 1
                 else if Z.even (z / 2 ^ e) then z / 2 ^ e
                 else z / 2 ^ e + 1)).
  { destruct (z mod 2 ^ e <? 2 ^ (e - 1)); [assumption|].
    destruct (2 ^ (e - 1) <? z mod 2 ^ e); [lia|].
    destruct (Z.even (z / 2 ^ e)); lia. }
  cbv zeta. nia.
Qed.

Lemma bigEndian_range (buffer : Buffer) (off : nat) :
  0 <= bigEndian buffer off 4 < 2 ^ 32.
Proof.
  unfold bigEndian. generalize (skipn off buffer) as l.
  intros [|a [|b [|c [|d r]]]]; cbn [firstn fold_left];
    try pose proof (u8_range a); try pose proof (u8_range b);
    try pose proof (u8_range c); try pose proof (u8_range d);
    change (2 ^ 32) with 4294967296; lia.
Qed.

(** What a successful read tells about the file. *)
Lemma getImageDimensions_Some (buffer : Buffer) (d : Dimensions) :
  getImageDimensions buffer = Normal (Some d) ->
  firstn 8 buffer = PNG_SIGNATURE /\ 24 <= length buffer
  /\ width d = bigEndian buffer 16 4 /\ height d = bigEndian buffer 20 4
  /\ 0 <= width d < 2 ^ 32 /\ 0 <= height d < 2 ^ 32.
Proof.
  intros H.
  destruct (getImageDimensions_cases buffer)
    as [[_ E]|[(Hsig & Hlen & E)|(_ & _ & E)]];
    rewrite E in H; try discriminate.
  injection H as <-. cbn [width height].
  pose proof (bigEndian_range buffer 16).
  pose proof (bigEndian_range buffer 20).
  repeat split; solve [assumption | lia].
Qed.

(** *** Processing one image file *)

Lemma append_inv_head (a b c : string) : a +++ b = a +++ c -> b = c.
Proof.
  induction a as [|x a IH]; simpl; intros E; [assumption|].
  injection E as E. auto.
Qed.

Lemma invalidDimensions_not_name (rel : string) (d : option Dimensions) :
  invalidDimensions rel d <> invalidTokenName rel
  /\ invalidDimensions rel d <> invalidValidatorName rel
  /\ invalidDimensions rel d <> transparentImage rel.
Proof.
  unfold invalidDimensions, invalidTokenName, invalidValidatorName,
    transparentImage.
  repeat split; intros E; apply append_inv_head in E; discriminate.
Qed.

Lemma validateFileName_cases (rel ext : string) (errors : list string) :
  exists pushed,
    validateFileName rel ext errors = errors ++ pushed
    /\ (pushed = [] \/ pushed = [invalidTokenName rel]
        \/ pushed = [invalidValidatorName rel]).
Proof.
  unfold validateFileName.
  destruct (includes "tokens" rel).
  - destruct (negb _); eauto using app_nil_r.
  - destruct (includes "validators" rel); [|eauto using app_nil_r].
    destruct (negb _); eauto using app_nil_r.
Qed.

Lemma validateDimensions_cases (rel : string) (d : option Dimensions)
    (errors : list string) :
  validateDimensions rel d errors
  = errors ++ (if badDimensions d then [invalidDimensions rel d] else []).
Proof.
  unfold validateDimensions. destruct (badDimensions d);
    [reflexivity | rewrite app_nil_r; reflexivity].
Qed.

Lemma validateTransparency_cases (rel ext : string) (buffer : Buffer)
    (d : option Dimensions) (errors errors' : list string) :
  validateTransparency rel ext buffer d errors = Normal errors' ->
  exists pushed, errors' = errors ++ pushed
                 /\ (pushed = [] \/ pushed = [transparentImage rel]).
Proof.
  unfold validateTransparency.
  destruct (String.eqb ext ".png"), d as [d|];
    try (intros [= <-]; exists []; rewrite app_nil_r; auto).
  destruct (readUInt32BE buffer 0); try discriminate.
  destruct (readUInt32BE buffer (sub (width d) 1)); try discriminate.
  destruct (readUInt32BE buffer _); try discriminate.
  destruct (readUInt32BE buffer _); try discriminate.
  cbn [bind]. destruct (_ || _); intros [= <-]; eauto using app_nil_r.
Qed.

Lemma processFile_image (dirPath name : string) (content : Buffer)
    (errors : list string) :
  isImageExt (toLowerCase (extname name)) = true ->
  processFile dirPath name content errors =
    (dimensions <- getImageDimensions content ;;
     let rel := relative FOLDER_PATH (join dirPath name) in
     let ext := toLowerCase (extname name) in
     validateTransparency rel ext content dimensions
       (validateDimensions rel dimensions (validateFileName rel ext errors))).
Proof.
  intros H. unfold processFile. rewrite H. reflexivity.
Qed.

Lemma push_changes {A} (l : list A) (x : A) : l ++ [x] <> l.
Proof.
  intros E. apply (f_equal (@List.length A)) in E.
  rewrite length_app in E. simpl in E. lia.
Qed.

Lemma badDimensions_iff (d : option Dimensions) :
  badDimensions d = true <-> DimensionFault d.
Proof.
  unfold badDimensions, DimensionFault. destruct d as [d|].
  - rewrite !orb_true_iff, negb_true_iff, !Z.ltb_lt, Z.eqb_neq.
    split.
    + intros H. right. exists d. split; [reflexivity|]. tauto.
    + intros [H|(d' & [= <-] & H)]; [discriminate|tauto].
  - split; auto.
Qed.

Lemma skipn_length_app {A} (l r : list A) :
  skipn (List.length l) (l ++ r) = r.
Proof.
  induction l as [|x l IH]; simpl; auto.
Qed.

(** What a file that is processed to the end adds to [errors]: at most
    one naming error, then at most one dimension error, then at most
    one transparency error. *)
Lemma processFile_pushed (dirPath name : string) (content : Buffer)
    (dimensions : option Dimensions) (errors errors' : list string) :
  getImageDimensions content = Normal dimensions ->
  processFile dirPath name content errors = Normal errors' ->
  let rel := relative FOLDER_PATH (join dirPath name) in
  exists naming transparency,
    errors' = errors ++ naming
              ++ (if badDimensions dimensions
                  then [invalidDimensions rel dimensions] else [])
              ++ transparency
    /\ (naming = [] \/ naming = [invalidTokenName rel]
        \/ naming = [invalidValidatorName rel])
    /\ (transparency = [] \/ transparency = [transparentImage rel]).
Proof.
  intros Hd Hp rel. unfold processFile in Hp.
  destruct (isImageExt (toLowerCase (extname name))); [|discriminate].
  rewrite Hd in Hp. cbn [bind] in Hp. fold rel in Hp.
  apply validateTransparency_cases in Hp as (t & -> & Ht).
  rewrite validateDimensions_cases.
  destruct (validateFileName_cases rel (toLowerCase (extname name)) errors)
    as (n & -> & Hn).
  exists n, t. rewrite <- !app_assoc. auto.
Qed.

(** C4: the dimension rule.  For every image file the validator calls
    the reader and, when it returns, passes what it returned through the
    dimension check, after the naming check and before the corner
    check.  That check adds its one message if and only if the reader
    returned null, or the width is below 1024, or the height is below
    1024, or width and height differ, and otherwise leaves the errors
    as they are, whatever the corner check does afterwards; 1024 x 1024
    passes, 1023 x 1024 and 2048 x 1024 fail. *)
Theorem dimension_gate (dirPath name : string) (content : Buffer)
    (dimensions : option Dimensions) (errors : list string) :
  let rel := relative FOLDER_PATH (join dirPath name) in
  let ext := toLowerCase (extname name) in
  (validateDimensions rel dimensions errors
   = errors ++ [invalidDimensions rel dimensions]
   <-> DimensionFault dimensions)
  /\ (validateDimensions rel dimensions errors = errors
      <-> ~ DimensionFault dimensions)
  /\ (isImageExt ext = true ->
      processFile dirPath name content errors
      = (dimensions <- getImageDimensions content ;;
         validateTransparency rel ext content dimensions
           (validateDimensions rel dimensions
              (validateFileName rel ext errors))))
  /\ validateDimensions rel (Some {| width := 1024; height := 1024 |}) errors
     = errors
  /\ validateDimensions rel (Some {| width := 1023; height := 1024 |}) errors
     = errors
       ++ [invalidDimensions rel (Some {| width := 1023; height := 1024 |})]
  /\ validateDimensions rel (Some {| width := 2048; height := 1024 |}) errors
     = errors
       ++ [invalidDimensions rel (Some {| width := 2048; height := 1024 |})].
Proof.
  intros rel ext.
  assert (V : validateDimensions rel dimensions errors
              = errors ++ (if badDimensions dimensions
                           then [invalidDimensions rel dimensions] else []))
    by apply validateDimensions_cases.
  pose proof (badDimensions_iff dimensions) as B.
  split; [|split; [|split; [|repeat split]]].
  - rewrite V, <- B. destruct (badDimensions dimensions).
    + split; reflexivity.
    + rewrite app_nil_r. split; [|discriminate].
      intros E. symmetry in E. apply push_changes in E. destruct E.
  - rewrite V, <- B. destruct (badDimensions dimensions).
    + split; [|intros N; contradiction N; reflexivity].
      intros E. apply push_changes in E. destruct E.
    + rewrite app_nil_r. split; [discriminate | reflexivity].
  - apply processFile_image.
Qed.

Lemma dimension_gate_witness :
  let rel := "tokens/a.png" in
  (validateDimensions rel (Some {| width := 1023; height := 1024 |})
     [invalidTokenName rel]
   = [invalidTokenName rel]
     ++ [invalidDimensions rel (Some {| width := 1023; height := 1024 |})]
   <-> DimensionFault (Some {| width := 1023; height := 1024 |}))
  /\ processFile (join FOLDER_PATH "tokens") "a.png"
       (PNG_SIGNATURE ++ [x00; x00; x00; x0d; x49; x48; x44; x52]
        ++ uint32BE 1023 ++ uint32BE 1024) []
     = Throw RangeError.
Proof.
  pose proof (dimension_gate (join FOLDER_PATH "tokens") "a.png"
                (PNG_SIGNATURE ++ [x00; x00; x00; x0d; x49; x48; x44; x52]
                 ++ uint32BE 1023 ++ uint32BE 1024)
                (Some {| width := 1023; height := 1024 |})
                [invalidTokenName "tokens/a.png"]) as G.
  split; [exact (proj1 G)|].
  pose proof (dimension_gate (join FOLDER_PATH "tokens") "a.png"
                (PNG_SIGNATURE ++ [x00; x00; x00; x0d; x49; x48; x44; x52]
                 ++ uint32BE 1023 ++ uint32BE 1024)
                (Some {| width := 1023; height := 1024 |}) []) as P.
  rewrite (proj1 (proj2 (proj2 P)) eq_refl). reflexivity.
Defined.

(** *** The transparency check *)

Lemma readUInt32BE_total (buffer : Buffer) (offset : Z) :
  (exists word, readUInt32BE buffer offset = Normal word)
  \/ readUInt32BE buffer offset = Throw RangeError.
Proof.
  unfold readUInt32BE.
  destruct (at_ buffer offset), (at_ buffer (offset + 1)),
    (at_ buffer (offset + 2)), (at_ buffer (offset + 3)); eauto.
Qed.

Lemma sub_exact (a b : Z) : Z.abs (a - b) < 2 ^ 53 -> sub a b = a - b.
Proof. apply roundToDouble_exact. Qed.

Lemma mul_exact (a b : Z) : Z.abs (a * b) < 2 ^ 53 -> mul a b = a * b.
Proof. apply roundToDouble_exact. Qed.

(** The clamp of the fourth offset, [Math.min(x, buffer.length - 4)]. *)
Lemma min_clamp (x len : Z) :
  0 <= x < 2 ^ 53 -> 4 <= len ->
  Z.min x (sub len 4) = Z.min x (len - 4).
Proof.
  intros Hx Hlen. destruct (Z_lt_ge_dec (len - 4) (2 ^ 53)) as [H|H].
  - rewrite sub_exact by lia. reflexivity.
  - pose proof (roundToDouble_large (len - 4) ltac:(lia)) as R.
    unfold sub. lia.
Qed.

(** The transparency check once the extension is [.png] and the reader
    has returned [d]. *)
Lemma validateTransparency_png (rel : string) (buffer : Buffer)
    (d : Dimensions) (errors : list string) :
  validateTransparency rel ".png" buffer (Some d) errors =
    (topLeftPixel <- readUInt32BE buffer 0 ;;
     topRightPixel <- readUInt32BE buffer (sub (width d) 1) ;;
     bottomLeftPixel <-
       readUInt32BE buffer
         (rem (mul (width d) (sub (height d) 1)) (length buffer)) ;;
     bottomRightPixel <-
       readUInt32BE buffer
         (Z.min (sub (mul (width d) (height d)) 1) (sub (length buffer) 4)) ;;
     if (topLeftPixel =? 0) || (topRightPixel =? 0)
        || (bottomLeftPixel =? 0) || (bottomRightPixel =? 0)
     then Normal (errors ++ [transparentImage rel])
     else Normal errors).
Proof. reflexivity. Qed.

(** The second or third read outside the buffer makes the check raise. *)
Lemma validateTransparency_faults (rel : string) (buffer : Buffer)
    (d : Dimensions) (errors : list string) :
  4 <= length buffer ->
  0 <= width d < 2 ^ 32 -> 0 <= height d < 2 ^ 32 ->
  length buffer - 4 < width d - 1
  \/ (1 <= height d /\ width d * height d < 2 ^ 53
      /\ length buffer - 4
         < (width d * (height d - 1)) mod length buffer) ->
  validateTransparency rel ".png" buffer (Some d) errors = Throw RangeError.
Proof.
  intros Hlen Hw Hh H. rewrite validateTransparency_png.
  destruct (readUInt32BE_inside buffer 0) as (w0 & -> & _); [lia|].
  cbn [bind]. rewrite (sub_exact (width d) 1) by lia.
  destruct H as [H|(H1 & Hp & H)].
  - rewrite readUInt32BE_outside by lia. reflexivity.
  - destruct (readUInt32BE_total buffer (width d - 1)) as [(w1 & ->)| ->];
      [|reflexivity].
    cbn [bind]. rewrite (sub_exact (height d) 1) by lia.
    rewrite mul_exact by nia.
    unfold rem. rewrite Z.rem_mod_nonneg by nia.
    rewrite readUInt32BE_outside by lia. reflexivity.
Qed.

(** C10: a PNG file whose declared width puts offset [width - 1], or
    whose [(width * (height - 1)) mod length] lies, beyond
    [length - 4] is not validated: the 32-bit read faults, and the file
    and with it the whole asset pass end in a RangeError instead of an
    error list. *)
Theorem transparency_read_out_of_bounds (dirPath name : string)
    (buffer : Buffer) (d : Dimensions) (errors : list string) :
  allowListed name = false ->
  toLowerCase (extname name) = ".png" ->
  getImageDimensions buffer = Normal (Some d) ->
  length buffer - 4 < width d - 1
  \/ (1 <= height d /\ width d * height d < 2 ^ 53
      /\ length buffer - 4
         < (width d * (height d - 1)) mod length buffer) ->
  firstn 8 buffer = PNG_SIGNATURE
  /\ processFile dirPath name buffer errors = Throw RangeError
  /\ validateAssetsImages [File name buffer] = Throw RangeError.
Proof.
  intros Hallow Hext Hd H.
  destruct (getImageDimensions_Some buffer d Hd)
    as (Hsig & Hlen & _ & _ & Hw & Hh).
  assert (P : forall dir errs,
             processFile dir name buffer errs = Throw RangeError).
  { intros dir errs. rewrite processFile_image by (rewrite Hext; reflexivity).
    rewrite Hd, Hext. cbn [bind].
    apply validateTransparency_faults; solve [assumption | lia]. }
  split; [assumption|]. split; [apply P|].
  unfold validateAssetsImages. cbn [processDirectory processEntry].
  rewrite Hallow, P. reflexivity.
Qed.

Lemma transparency_read_out_of_bounds_witness :
  (firstn 8 png1024 = PNG_SIGNATURE
   /\ processFile (join FOLDER_PATH "tokens") "a.png" png1024 []
      = Throw RangeError
   /\ validateAssetsImages [File "a.png" png1024] = Throw RangeError)
  /\ (firstn 8 png1x22 = PNG_SIGNATURE
      /\ processFile (join FOLDER_PATH "tokens") "a.png" png1x22 []
         = Throw RangeError
      /\ validateAssetsImages [File "a.png" png1x22] = Throw RangeError).
Proof.
  split.
  - apply (transparency_read_out_of_bounds (join FOLDER_PATH "tokens")
             "a.png" png1024 {| width := 1024; height := 1024 |} []);
      try reflexivity.
    left. reflexivity.
  - apply (transparency_read_out_of_bounds (join FOLDER_PATH "tokens")
             "a.png" png1x22 {| width := 1; height := 22 |} []);
      try reflexivity.
    right. by_computation.
Defined.

(** C6, as amended: for a [.png] file whose dimensions were read, whose
    four offsets lie inside the buffer and whose pixel count is below
    [2^53], processing the file reads the big-endian words at offsets 0,
    [width - 1], [(width * (height - 1)) mod length] and
    [min (width * height - 1) (length - 4)], and adds the transparency
    error exactly when one of them is zero. *)
Theorem transparency_rule (dirPath name : string) (buffer : Buffer)
    (d : Dimensions) (errors : list string) :
  toLowerCase (extname name) = ".png" ->
  getImageDimensions buffer = Normal (Some d) ->
  1 <= width d <= length buffer - 3 ->
  1 <= height d ->
  width d * height d < 2 ^ 53 ->
  (width d * (height d - 1)) mod length buffer <= length buffer - 4 ->
  let rel := relative FOLDER_PATH (join dirPath name) in
  let word := fun off => bigEndian buffer (Z.to_nat off) 4 in
  let offsets :=
    [0; width d - 1; (width d * (height d - 1)) mod length buffer;
     Z.min (width d * height d - 1) (length buffer - 4)] in
  let before :=
    validateDimensions rel (Some d) (validateFileName rel ".png" errors) in
  processFile dirPath name buffer errors
  = Normal (if existsb (fun off => word off =? 0) offsets
            then before ++ [transparentImage rel]
            else before).
Proof.
  intros Hext Hd Hw1 Hh1 Hp Hbl rel word offsets before.
  destruct (getImageDimensions_Some buffer d Hd)
    as (_ & Hlen & _ & _ & Hw & Hh).
  rewrite processFile_image by (rewrite Hext; reflexivity).
  rewrite Hd, Hext. cbn [bind]. cbv zeta. fold rel. fold before.
  rewrite validateTransparency_png.
  rewrite (sub_exact (width d) 1), (sub_exact (height d) 1) by lia.
  rewrite (mul_exact (width d) (height d - 1)) by nia.
  rewrite (mul_exact (width d) (height d)) by nia.
  rewrite (sub_exact (width d * height d) 1) by nia.
  rewrite min_clamp by nia.
  unfold rem. rewrite Z.rem_mod_nonneg by nia.
  assert (Hm : 0 <= (width d * (height d - 1)) mod length buffer)
    by (apply Z.mod_pos_bound; lia).
  destruct (readUInt32BE_inside buffer 0) as (w0 & -> & E0); [lia|].
  destruct (readUInt32BE_inside buffer (width d - 1)) as (w1 & -> & E1);
    [lia|].
  destruct (readUInt32BE_inside buffer
              ((width d * (height d - 1)) mod length buffer))
    as (w2 & -> & E2); [lia|].
  destruct (readUInt32BE_inside buffer
              (Z.min (width d * height d - 1) (length buffer - 4)))
    as (w3 & -> & E3); [nia|].
  cbn [bind]. unfold offsets. cbn [existsb]. unfold word.
  rewrite <- E0, <- E1, <- E2, <- E3, orb_false_r, !orb_assoc.
  destruct (_ || _); reflexivity.
Qed.

Lemma transparency_rule_witness :
  processFile (join FOLDER_PATH "tokens") "a.png" png8 []
  = Normal [invalidTokenName "tokens/a.png";
            invalidDimensions "tokens/a.png"
              (Some {| width := 8; height := 8 |})]
  /\ processFile (join FOLDER_PATH "tokens") "a.png" png8padded []
     = Normal [invalidTokenName "tokens/a.png";
               invalidDimensions "tokens/a.png"
                 (Some {| width := 8; height := 8 |});
               transparentImage "tokens/a.png"].
Proof.
  split.
  - apply (transparency_rule (join FOLDER_PATH "tokens") "a.png" png8
             {| width := 8; height := 8 |} []);
      by_computation.
  - apply (transparency_rule (join FOLDER_PATH "tokens") "a.png" png8padded
             {| width := 8; height := 8 |} []);
      by_computation.
Defined.

(** The claim without the bounds fails on the 24-byte header that
    declares 1024 x 1024: its dimensions are read, there is no word at
    offset [width - 1 = 1023], and the file yields an exception, not a
    verdict. *)
Lemma transparency_rule_counterexample :
  getImageDimensions png1024
  = Normal (Some {| width := 1024; height := 1024 |})
  /\ (forall word, readUInt32BE png1024 (1024 - 1) <> Normal word)
  /\ (forall errors errors',
        processFile (join FOLDER_PATH "tokens") "a.png" png1024 errors
        <> Normal errors').
Proof.
  split; [reflexivity|]. split.
  - intros word. rewrite readUInt32BE_outside; [discriminate|].
    right. reflexivity.
  - intros errors errors'.
    rewrite processFile_image by reflexivity.
    change (getImageDimensions png1024)
      with (@Normal (option Dimensions)
              (Some {| width := 1024; height := 1024 |})).
    cbn [bind].
    change (toLowerCase (extname "a.png")) with ".png".
    rewrite validateTransparency_faults; [discriminate|..];
      cbn [width height]; unfold length; simpl; lia.
Qed.

(** *** The traversal *)

Lemma processEntry_Directory (dirPath name : string) (entries : list Dirent)
    (errors : list string) :
  processEntry dirPath (Directory name entries) errors
  = processDirectory (join dirPath name) entries errors.
Proof.
  cbn [processEntry]. generalize (join dirPath name) as dir.
  intros dir. revert errors.
  induction entries as [|entry rest IH]; intros errors; [reflexivity|].
  cbn [processDirectory].
  destruct (processEntry dir entry errors); cbn [bind]; auto.
Qed.

Lemma allowListed_iff (name : string) :
  allowListed name = true
  <-> name = ".DS_Store" \/ name = "validator-default.png".
Proof.
  unfold allowListed, arrayIncludes. cbn [existsb].
  rewrite !orb_true_iff, !String.eqb_eq. intuition discriminate.
Qed.

Lemma unsupported_file_exits (dirPath name : string) (content : Buffer)
    (errors : list string) :
  allowListed name = false ->
  isImageExt (toLowerCase (extname name)) = false ->
  processEntry dirPath (File name content) errors
  = ProcessExit 1 [unsupportedFileType (join dirPath name)].
Proof.
  intros Ha He. cbn [processEntry]. rewrite Ha.
  unfold processFile. rewrite He. reflexivity.
Qed.

Lemma encounter_exits (name : string) (content : Buffer) (dirPath : string)
    (entries : list Dirent) (errors : list string) (dir : string) :
  allowListed name = false ->
  isImageExt (toLowerCase (extname name)) = false ->
  Encounters name content dirPath entries errors dir ->
  processDirectory dirPath entries errors
  = ProcessExit 1 [unsupportedFileType (join dir name)].
Proof.
  intros Ha He E.
  induction E as [dirPath rest errors
                 | dirPath rest errors
                 | dirPath sub entries rest errors dir E IH
                 | dirPath entry rest errors errors' dir Hp E IH];
    cbn [processDirectory].
  - rewrite unsupported_file_exits by assumption. reflexivity.
  - cbn [processEntry]. rewrite Ha, He. reflexivity.
  - rewrite processEntry_Directory, IH. reflexivity.
  - rewrite Hp. cbn [bind]. assumption.
Qed.

(** C7: when the traversal gets to a file that is not on the allow list
    and whose extension, lower-cased, is none of [.png], [.jpg],
    [.jpeg], the run calls [process.exit(1)] there: whatever entries are
    still to come and whatever errors were accumulated, nothing but the
    "Unsupported file type" line is written.  A file on the allow list
    ([.DS_Store], [validator-default.png]) is skipped and leaves the
    errors as they are. *)
Theorem unsupported_file_terminates (name : string) (content : Buffer)
    (dirPath : string) (entries : list Dirent) (errors : list string)
    (dir : string) :
  allowListed name = false ->
  isImageExt (toLowerCase (extname name)) = false ->
  Encounters name content dirPath entries errors dir ->
  processDirectory dirPath entries errors
  = ProcessExit 1 [unsupportedFileType (join dir name)]
  /\ (dirPath = FOLDER_PATH -> errors = [] ->
      validateAssetsImages entries
      = ProcessExit 1 [unsupportedFileType (join dir name)])
  /\ (forall skipped bytes path errs,
        skipped = ".DS_Store" \/ skipped = "validator-default.png" ->
        processEntry path (File skipped bytes) errs = Normal errs).
Proof.
  intros Ha He E.
  pose proof (encounter_exits name content dirPath entries errors dir Ha He E)
    as P.
  split; [assumption|]. split.
  - intros -> ->. unfold validateAssetsImages. rewrite P. reflexivity.
  - intros skipped bytes path errs H. apply allowListed_iff in H.
    cbn [processEntry]. rewrite H. reflexivity.
Qed.

Lemma unsupported_file_terminates_witness :
  processDirectory FOLDER_PATH assetsWithNotes []
  = ProcessExit 1 ["src/assets/tokens/notes.txt: Unsupported file type!"]
  /\ (FOLDER_PATH = FOLDER_PATH -> @nil string = [] ->
      validateAssetsImages assetsWithNotes
      = ProcessExit 1 ["src/assets/tokens/notes.txt: Unsupported file type!"])
  /\ (forall skipped bytes path errs,
        skipped = ".DS_Store" \/ skipped = "validator-default.png" ->
        processEntry path (File skipped bytes) errs = Normal errs).
Proof.
  apply (unsupported_file_terminates "notes.txt" [] FOLDER_PATH
           assetsWithNotes [] (join FOLDER_PATH "tokens"));
    [reflexivity | reflexivity |].
  apply enc_inside.
  apply enc_later
    with (errors' := [invalidTokenName "tokens/a.jpg";
                      invalidDimensions "tokens/a.jpg" None]);
    [reflexivity|].
  apply enc_here.
Defined.

(** *** File names *)

Lemma isHexDigit_existsb (c : ascii) :
  isHexDigit c = existsb (Ascii.eqb c) hexChars.
Proof.
  destruct c as [[] [] [] [] [] [] [] []]; reflexivity.
Qed.

Lemma isHexDigit_iff (c : ascii) : isHexDigit c = true <-> In c hexChars.
Proof.
  rewrite isHexDigit_existsb, existsb_exists. split.
  - intros (x & Hin & E). apply Ascii.eqb_eq in E. subst. assumption.
  - intros H. exists c. split; [assumption | apply Ascii.eqb_refl].
Qed.

Lemma allHex_iff (s : string) :
  allHex s = true
  <-> Forall (fun c => In c hexChars) (list_ascii_of_string s).
Proof.
  induction s as [|c s IH]; cbn [allHex list_ascii_of_string].
  - split; auto.
  - rewrite andb_true_iff, isHexDigit_iff, IH. split.
    + intros [H1 H2]. constructor; assumption.
    + intros H. inversion H; subst. split; assumption.
Qed.

(** The two regular expressions accept exactly the hex addresses. *)
Lemma hexAddressRegexTest_iff (n : nat) (s : string) :
  hexAddressRegexTest n s = true <-> HexAddress n s.
Proof.
  unfold hexAddressRegexTest, HexAddress. split.
  - destruct s as [|c0 [|c1 digits]]; try discriminate.
    rewrite !andb_true_iff, orb_true_iff, !Ascii.eqb_eq, Nat.eqb_eq,
      allHex_iff.
    intros [[[-> Hx] Hn] Hd]. exists c1, digits. auto.
  - intros (x & digits & -> & Hx & Hn & Hd).
    rewrite !andb_true_iff, orb_true_iff, !Ascii.eqb_eq, Nat.eqb_eq,
      allHex_iff.
    auto.
Qed.

Lemma validateFileName_tokens (rel ext : string) (errors : list string) :
  includes "tokens" rel = true ->
  let stripped := replaceFirst "tokens/" (replaceFirst ext rel) in
  (validateFileName rel ext errors = errors <-> HexAddress 40 stripped)
  /\ (validateFileName rel ext errors = errors ++ [invalidTokenName rel]
      <-> ~ HexAddress 40 stripped).
Proof.
  intros Hin stripped. unfold validateFileName. rewrite Hin.
  fold stripped. unfold tokenRegex.
  rewrite <- hexAddressRegexTest_iff.
  destruct (hexAddressRegexTest 40 stripped); cbn [negb].
  - intuition (try congruence).
    exfalso. eapply push_changes. symmetry. eassumption.
  - intuition (try congruence).
    exfalso. eapply push_changes. eassumption.
Qed.


Lemma prefix_refl (s : string) : String.prefix s s = true.
Proof.
  induction s as [|c s IH]; [reflexivity|].
  cbn [String.prefix]. destruct (ascii_dec c c); [assumption|congruence].
Qed.

Lemma prefix_empty (s : string) : String.prefix "" s = true.
Proof. destruct s; reflexivity. Qed.

Lemma drop_length (s : string) : drop (String.length s) s = "".
Proof. induction s as [|c s IH]; [reflexivity | assumption]. Qed.

(** Removing the extension from a dot-free name followed by it gives
    the name back. *)
Lemma replaceFirst_after_base (e base : string) :
  includes "." base = false ->
  replaceFirst (String "." e) (base +++ String "." e) = base.
Proof.
  induction base as [|c base IH]; intros H.
  - cbn [String.append]. unfold replaceFirst.
    rewrite prefix_refl. apply drop_length.
  - cbn [includes] in H. apply orb_false_iff in H as [Hc Hrest].
    cbn [String.append replaceFirst String.prefix] in *.
    destruct (ascii_dec "." c) as [E|Hne].
    + rewrite prefix_empty in Hc. discriminate.
    + rewrite IH by assumption. reflexivity.
Qed.

Lemma isImageExt_cases (ext : string) :
  isImageExt ext = true -> ext = ".png" \/ ext = ".jpg" \/ ext = ".jpeg".
Proof.
  unfold isImageExt. rewrite !orb_true_iff, !String.eqb_eq. tauto.
Qed.

Lemma replaceFirst_unfold (pat s : string) :
  replaceFirst pat s =
    if String.prefix pat s then drop (String.length pat) s
    else match s with
         | EmptyString => EmptyString
         | String c s' => String c (replaceFirst pat s')
         end.
Proof. destruct s; reflexivity. Qed.

(** In a file that lies directly in [tokens] or [validators], whose
    name has no dot before a lower-case image extension, the two
    replacements leave the name without the extension. *)
Lemma stripped_direct (folder base ext : string) :
  folder = "tokens" \/ folder = "validators" ->
  isImageExt ext = true ->
  includes "." base = false ->
  replaceFirst (folder +++ "/")
    (replaceFirst ext
       (relative FOLDER_PATH (join (join FOLDER_PATH folder) (base +++ ext))))
  = base.
Proof.
  intros Hf Himg Hdot.
  destruct Hf as [-> | ->];
    destruct (isImageExt_cases ext Himg) as [-> | [-> | ->]];
    simpl; rewrite prefix_empty, replaceFirst_after_base by assumption;
    reflexivity.
Qed.




(** *** The metadata cross-check *)

Lemma append_assoc (a b c : string) : (a +++ b) +++ c = a +++ b +++ c.
Proof.
  induction a as [|x a IH]; [reflexivity|].
  cbn [String.append]. rewrite IH. reflexivity.
Qed.

(** *** Paths *)

Lemma segments_nonempty (path : string) : segments path <> [].
Proof.
  destruct path as [|c rest]; cbn [segments]; [discriminate|].
  destruct (Ascii.eqb c "/"); [discriminate|].
  destruct (segments rest); discriminate.
Qed.

Lemma segments_append (a b : string) :
  segments (a +++ "/" +++ b) = segments a ++ segments b.
Proof.
  induction a as [|c a IH].
  - reflexivity.
  - change ((String c a) +++ "/" +++ b) with (String c (a +++ "/" +++ b)).
    cbn [segments]. rewrite IH.
    destruct (Ascii.eqb c "/"); [reflexivity|].
    pose proof (segments_nonempty a) as N.
    destruct (segments a) as [|seg more]; [contradiction|]. reflexivity.
Qed.

Lemma joinSegments_segments (path : string) :
  joinSegments (segments path) = path.
Proof.
  induction path as [|c rest IH]; [reflexivity|].
  cbn [segments]. pose proof (segments_nonempty rest) as N.
  destruct (Ascii.eqb_spec c "/") as [->|_].
  - destruct (segments rest) as [|seg more]; [contradiction|].
    cbn [joinSegments] in *. rewrite IH. reflexivity.
  - destruct (segments rest) as [|seg more]; [contradiction|].
    cbn [joinSegments] in *. destruct more; rewrite <- IH; reflexivity.
Qed.

Lemma joinSegments_app (front back : list string) :
  front <> [] -> back <> [] ->
  joinSegments (front ++ back)
  = joinSegments front +++ "/" +++ joinSegments back.
Proof.
  intros Hf Hb. induction front as [|seg more IH]; [contradiction|].
  destruct more as [|seg' more].
  - destruct back; [contradiction|]. reflexivity.
  - change ((seg :: seg' :: more) ++ back)
      with (seg :: (seg' :: more) ++ back).
    change (joinSegments (seg :: (seg' :: more) ++ back))
      with (seg +++ "/" +++ joinSegments ((seg' :: more) ++ back)).
    rewrite IH by discriminate.
    change (joinSegments (seg :: seg' :: more))
      with (seg +++ "/" +++ joinSegments (seg' :: more)).
    rewrite !append_assoc. reflexivity.
Qed.

Lemma joinSegments_last (front : list string) (seg : string) :
  seg <> "" -> joinSegments (front ++ [seg]) <> "".
Proof.
  intros Hs. induction front as [|first more IH]; [exact Hs|].
  destruct more as [|second more].
  - cbn [app joinSegments]. destruct first; discriminate.
  - change (joinSegments ((first :: second :: more) ++ [seg]))
      with (first +++ "/" +++ joinSegments ((second :: more) ++ [seg])).
    destruct first; discriminate.
Qed.

Lemma normalizeSegment_plain (allowAboveRoot : bool) (segs res : list string) :
  forallb plainSegment segs = true ->
  fold_left (normalizeSegment allowAboveRoot) segs res = rev segs ++ res.
Proof.
  revert res. induction segs as [|seg more IH]; intros res H; [reflexivity|].
  cbn [forallb] in H. apply andb_true_iff in H as [Hp H].
  unfold plainSegment in Hp.
  apply andb_true_iff in Hp as [Hp H2]. apply andb_true_iff in Hp as [H0 H1].
  apply negb_true_iff in H0, H1, H2.
  cbn [fold_left rev]. unfold normalizeSegment at 2.
  rewrite H0, H1, H2. cbn [orb]. rewrite IH by assumption.
  rewrite <- app_assoc. reflexivity.
Qed.

Lemma startsWithSlash_append (a b : string) :
  a <> "" -> startsWithSlash (a +++ b) = startsWithSlash a.
Proof.
  destruct a; [contradiction | reflexivity].
Qed.

Lemma endsWithSlash_append (a b : string) :
  b <> "" -> endsWithSlash (a +++ b) = endsWithSlash b.
Proof.
  intros Hb. induction a as [|c a IH]; [reflexivity|].
  change (String c a +++ b) with (String c (a +++ b)).
  cbn [endsWithSlash]. rewrite <- IH.
  destruct (a +++ b) eqn:E; [|reflexivity].
  destruct a; cbn in E; [contradiction | discriminate E].
Qed.

Lemma endsWithSlash_last (path : string) :
  endsWithSlash path = true -> exists front, segments path = front ++ [""].
Proof.
  induction path as [|c rest IH]; [discriminate|].
  destruct rest as [|c' rest'].
  - cbn [endsWithSlash segments]. intros ->. exists [""]. reflexivity.
  - intros H. change (endsWithSlash (String c' rest') = true) in H.
    destruct (IH H) as (front & E).
    remember (String c' rest') as r eqn:Er.
    cbn [segments]. rewrite E.
    destruct (Ascii.eqb c "/"); [exists ("" :: front); reflexivity|].
    destruct front as [|seg front].
    + exfalso. pose proof (joinSegments_segments r) as J.
      rewrite E in J. rewrite Er in J. discriminate J.
    + exists (String c seg :: front). reflexivity.
Qed.

Lemma endsWithSlash_segments (path : string) :
  endsWithSlash path = true -> In "" (segments path).
Proof.
  intros H. destruct (endsWithSlash_last path H) as (front & ->).
  apply in_or_app. right. left. reflexivity.
Qed.

Lemma plainPath_segments (ident : string) :
  plainPath ident = true -> ~ In "" (segments ident).
Proof.
  unfold plainPath. intros H Hin.
  rewrite forallb_forall in H. specialize (H "" Hin). discriminate.
Qed.

Lemma plainPath_nonempty (ident : string) :
  plainPath ident = true -> ident <> "".
Proof.
  intros H ->. discriminate.
Qed.

(** Below a path that does not normalise to nothing, a plain path is
    taken as it is. *)
Lemma normalize_below (p q top : string) (stack : list string) :
  p <> "" ->
  endsWithSlash p = false ->
  fold_left (normalizeSegment (negb (startsWithSlash p))) (segments p) []
  = top :: stack ->
  top <> "" ->
  plainPath q = true ->
  normalize (p +++ "/" +++ q) = normalize p +++ "/" +++ q.
Proof.
  intros Hp He Hfold Htop Hq.
  assert (Hq0 : q <> "") by (apply plainPath_nonempty; assumption).
  assert (Heq : endsWithSlash q = false).
  { destruct (endsWithSlash q) eqn:E; [|reflexivity].
    apply endsWithSlash_segments in E.
    apply plainPath_segments in Hq. contradiction. }
  assert (R : forall rest,
             normalizeString (p +++ rest) (negb (startsWithSlash p))
             = joinSegments
                 (rev (fold_left
                         (normalizeSegment (negb (startsWithSlash p)))
                         (segments (p +++ rest)) []))) by reflexivity.
  unfold normalize.
  assert (N1 : String.eqb (p +++ "/" +++ q) "" = false)
    by (apply String.eqb_neq; destruct p; [contradiction | discriminate]).
  assert (N2 : String.eqb p "" = false) by (apply String.eqb_neq; assumption).
  rewrite N1, N2. cbv zeta.
  rewrite (startsWithSlash_append p ("/" +++ q) Hp).
  rewrite (endsWithSlash_append p ("/" +++ q)) by discriminate.
  assert (E1 : endsWithSlash ("/" +++ q) = false).
  { rewrite (endsWithSlash_append "/" q) by assumption. assumption. }
  rewrite E1, He.
  unfold normalizeString.
  rewrite segments_append, fold_left_app, Hfold.
  rewrite normalizeSegment_plain by exact Hq.
  rewrite rev_app_distr, rev_involutive.
  assert (Hne : rev (top :: stack) <> []).
  { cbn [rev]. destruct (rev stack); discriminate. }
  rewrite joinSegments_app
    by (try exact Hne; apply segments_nonempty).
  rewrite joinSegments_segments.
  set (res := joinSegments (rev (top :: stack))).
  assert (Hres : res <> "").
  { unfold res. cbn [rev]. apply joinSegments_last. assumption. }
  assert (N3 : String.eqb res "" = false) by (apply String.eqb_neq; assumption).
  assert (N4 : String.eqb (res +++ "/" +++ q) "" = false)
    by (apply String.eqb_neq; destruct res; [contradiction | discriminate]).
  rewrite N3, N4.
  destruct (startsWithSlash p); reflexivity.
Qed.

(** What [path.join] makes of the directory of the script and a plain
    path below the metadata root. *)
Lemma pathJoin_below (dirname q : string) :
  plainPath q = true ->
  pathJoin dirname ("../" +++ METADATA_FOLDER +++ "/" +++ q)
  = metadataRoot dirname +++ "/" +++ q.
Proof.
  intros Hq. unfold metadataRoot.
  destruct dirname as [|c d].
  - change (pathJoin "" ("../" +++ METADATA_FOLDER +++ "/" +++ q))
      with (normalize ("../src" +++ "/" +++ q)).
    change (pathJoin "" ("../" +++ METADATA_FOLDER))
      with (normalize "../src").
    apply (normalize_below "../src" q "src" [".."]);
      [discriminate | reflexivity | reflexivity | discriminate | assumption].
  - change (pathJoin (String c d) ("../" +++ METADATA_FOLDER +++ "/" +++ q))
      with (normalize (String c d +++ "/" +++ "../src" +++ "/" +++ q)).
    change (pathJoin (String c d) ("../" +++ METADATA_FOLDER))
      with (normalize (String c d +++ "/" +++ "../src")).
    assert (E : String c d +++ "/" +++ "../src" +++ "/" +++ q
                = (String c d +++ "/" +++ "../src") +++ "/" +++ q)
      by (rewrite !append_assoc; reflexivity).
    rewrite E.
    set (allow := negb (startsWithSlash (String c d +++ "/" +++ "../src"))).
    apply (normalize_below (String c d +++ "/" +++ "../src") q "src"
             (normalizeSegment allow
                (fold_left (normalizeSegment allow) (segments (String c d)) [])
                "..")).
    + discriminate.
    + rewrite endsWithSlash_append by discriminate. reflexivity.
    + fold allow. rewrite segments_append, fold_left_app. reflexivity.
    + discriminate.
    + assumption.
Qed.

Lemma plainPath_append (a b : string) :
  plainPath a = true -> plainPath b = true ->
  plainPath (a +++ "/" +++ b) = true.
Proof.
  unfold plainPath. intros Ha Hb.
  rewrite segments_append, forallb_app, Ha, Hb. reflexivity.
Qed.

Lemma startsWithSlash_segments (path : string) :
  startsWithSlash path = true -> In "" (segments path).
Proof.
  destruct path as [|c rest]; [discriminate|].
  cbn [startsWithSlash segments]. intros ->. left. reflexivity.
Qed.

(** A path made of plain names is its own normal form. *)
Lemma normalize_plain (p : string) : plainPath p = true -> normalize p = p.
Proof.
  intros Hp.
  assert (H0 : String.eqb p "" = false)
    by (apply String.eqb_neq, plainPath_nonempty; assumption).
  assert (Hs : startsWithSlash p = false).
  { destruct (startsWithSlash p) eqn:E; [|reflexivity].
    apply startsWithSlash_segments in E.
    apply plainPath_segments in Hp. contradiction. }
  assert (He : endsWithSlash p = false).
  { destruct (endsWithSlash p) eqn:E; [|reflexivity].
    apply endsWithSlash_segments in E.
    apply plainPath_segments in Hp. contradiction. }
  unfold normalize, normalizeString. rewrite H0, Hs, He. cbv zeta.
  rewrite normalizeSegment_plain by exact Hp.
  rewrite app_nil_r, rev_involutive, joinSegments_segments, H0.
  reflexivity.
Qed.

(** On the path of a directory made of plain names and the name of an
    entry, [path.join] is concatenation. *)
Lemma pathJoin_entry (dir name : string) :
  plainPath dir = true -> plainPath name = true ->
  pathJoin dir name = join dir name.
Proof.
  intros Hd Hn.
  pose proof (plainPath_nonempty dir Hd) as D.
  pose proof (plainPath_nonempty name Hn) as N.
  destruct dir as [|c d]; [contradiction|].
  destruct name as [|c' n]; [contradiction|].
  cbn [pathJoin]. apply normalize_plain, plainPath_append; assumption.
Qed.

Section CrossCheck.

Variable existsSync : string -> bool.
Variable dirname : string.


Lemma checkToken_checks :
  Checks existsSync dirname (checkToken existsSync dirname) "tokens"
    address tokenNotFound.
Proof.
  intros [|fields] errors; cbn [identifier]; [reflexivity|].
  unfold checkToken. destruct (address fields); cbn [showId bind];
    try reflexivity; unfold imageMissing; destruct (noImage _ _);
    reflexivity.
Qed.

Lemma checkValidator_checks :
  Checks existsSync dirname (checkValidator existsSync dirname) "validators"
    id validatorNotFound.
Proof.
  intros [|fields] errors; cbn [identifier]; [reflexivity|].
  unfold checkValidator. destruct (id fields); cbn [showId bind];
    try reflexivity; unfold imageMissing; destruct (noImage _ _);
    reflexivity.
Qed.

Lemma checkVault_checks :
  Checks existsSync dirname (checkVault existsSync dirname) "tokens"
    stakingTokenAddress vaultNotFound.
Proof.
  intros [|fields] errors; cbn [identifier]; [reflexivity|].
  unfold checkVault. destruct (stakingTokenAddress fields);
    cbn [showId bind];
    try reflexivity; unfold imageMissing; destruct (noImage _ _);
    reflexivity.
Qed.

Lemma messagesFor_app (folder : string) (msg : string -> string)
    (first others : list string) :
  messagesFor existsSync dirname folder msg (first ++ others)
  = messagesFor existsSync dirname folder msg first
    ++ messagesFor existsSync dirname folder msg others.
Proof.
  unfold messagesFor. rewrite filter_app, map_app. reflexivity.
Qed.

Lemma forEach_checks check folder field msg (elements : list Element)
    (errors : list string) :
  Checks existsSync dirname check folder field msg ->
  forEach check elements errors
  = pushed errors
      (option_map (messagesFor existsSync dirname folder msg)
         (identifiers field elements)).
Proof.
  intros C. revert errors.
  induction elements as [|e rest IH]; intros errors;
    cbn [forEach identifiers].
  - cbn. rewrite app_nil_r. reflexivity.
  - rewrite C. destruct (identifier field e) as [ident|];
      [|reflexivity].
    cbn [bind]. rewrite IH.
    destruct (identifiers field rest) as [idents|]; [|reflexivity].
    cbn [option_map pushed]. unfold messagesFor. cbn [filter].
    destruct (imageMissing existsSync dirname folder ident);
      [|reflexivity].
    cbn [map]. rewrite <- app_assoc. reflexivity.
Qed.

Lemma lookup_NoDup {A} (obj : list (string * A)) (k : string) (v : A) :
  NoDup (keys obj) -> In (k, v) obj -> lookup k obj = Some v.
Proof.
  induction obj as [|[k' v'] obj IH]; intros Hnd Hin; [destruct Hin|].
  cbn [keys map fst] in Hnd. inversion Hnd as [|? ? Hnotin Hnd']; subst.
  cbn [lookup]. destruct Hin as [[= -> ->]|Hin].
  - rewrite String.eqb_refl. reflexivity.
  - destruct (String.eqb_spec k k') as [->|_]; [|auto].
    exfalso. apply Hnotin. unfold keys.
    change k' with (fst (k', v)). apply in_map. assumption.
Qed.

Lemma forEachFile_checks check folder field msg (jsonMetadata : Metadata)
    (key : string) (files : list (string * Content)) (errors : list string) :
  Checks existsSync dirname check folder field msg ->
  lookup key jsonMetadata = Some files ->
  NoDup (keys files) ->
  forEachFile check jsonMetadata key errors
  = pushed errors
      (option_map (messagesFor existsSync dirname folder msg)
         (identifiersOf field files)).
Proof.
  intros C Hl Hnd. unfold forEachFile. rewrite Hl.
  assert (G : forall part errs,
             incl part files ->
             forEach
               (fun file errs =>
                  match lookup file files with
                  | Some (Some elements) => forEach check elements errs
                  | _ => Throw TypeError
                  end) (keys part) errs
             = pushed errs
                 (option_map (messagesFor existsSync dirname folder msg)
                    (identifiersOf field part))).
  { induction part as [|[file content] part IH]; intros errs Hincl.
    - cbn. rewrite app_nil_r. reflexivity.
    - cbn [keys map fst forEach].
      assert (Hin : In (file, content) files) by (apply Hincl; left; auto).
      rewrite (lookup_NoDup files file content Hnd Hin).
      cbn [identifiersOf].
      destruct content as [elements|]; [|reflexivity].
      rewrite (forEach_checks check folder field msg elements errs C).
      destruct (identifiers field elements) as [first|]; [|reflexivity].
      cbn [option_map pushed bind]. fold (keys part).
      rewrite IH by (intros x Hx; apply Hincl; right; assumption).
      destruct (identifiersOf field part) as [others|]; [|reflexivity].
      cbn [option_map pushed].
      rewrite messagesFor_app, <- app_assoc. reflexivity. }
  apply G. apply incl_refl.
Qed.



End CrossCheck.




(** *** Exit status *)

Lemma forEach_NoExit {A} (f : A -> list string -> completion (list string))
    (l : list A) (errors : list string) :
  (forall x errs, NoExit (f x errs)) -> NoExit (forEach f l errors).
Proof.
  intros Hf. revert errors.
  induction l as [|x l IH]; intros errors code console; cbn [forEach].
  - discriminate.
  - specialize (Hf x errors). destruct (f x errors) as [errs|e|c o];
      cbn [bind].
    + apply IH.
    + discriminate.
    + exfalso. eapply Hf. reflexivity.
Qed.

Lemma forEachFile_NoExit check (jsonMetadata : Metadata) (key : string)
    (errors : list string) :
  (forall e errs, NoExit (check e errs)) ->
  NoExit (forEachFile check jsonMetadata key errors).
Proof.
  intros Hc. unfold forEachFile.
  destruct (lookup key jsonMetadata) as [files|]; [|discriminate].
  apply forEach_NoExit. intros file errs.
  destruct (lookup file files) as [[elements|]|]; try discriminate.
  apply forEach_NoExit. assumption.
Qed.

Lemma check_NoExit (existsSync : string -> bool) (dirname : string)
    check folder field msg (e : Element) (errors : list string) :
  Checks existsSync dirname check folder field msg ->
  NoExit (check e errors).
Proof.
  intros C code console. rewrite C.
  destruct (identifier field e); discriminate.
Qed.

Lemma metadataErrors_NoExit (existsSync : string -> bool) (dirname : string)
    (jsonMetadata : Metadata) :
  NoExit (metadataErrors existsSync dirname jsonMetadata).
Proof.
  unfold metadataErrors. apply forEach_NoExit. intros key errs.
  unfold checkCategory.
  destruct (String.eqb key "tokens");
    [|destruct (String.eqb key "validators");
      [|destruct (String.eqb key "vaults"); [|discriminate]]];
    apply forEachFile_NoExit; intros e errs';
    eauto using check_NoExit, checkToken_checks, checkValidator_checks,
      checkVault_checks.
Qed.








(** ** Further properties *)

(** *** The reader on every buffer *)

(** X1: The outcome of the reader is decided by the signature and the
    length alone: [null] without the PNG signature, a RangeError with
    the signature on fewer than 24 bytes, and otherwise the two words at
    offsets 16 and 20, whatever bytes 8 to 15 hold.  It ends in nothing
    else. *)
Theorem reader_outcomes (buffer : Buffer) :
  (getImageDimensions buffer = Normal None
   <-> firstn 8 buffer <> PNG_SIGNATURE)
  /\ (getImageDimensions buffer = Throw RangeError
      <-> firstn 8 buffer = PNG_SIGNATURE /\ length buffer < 24)
  /\ (forall d,
        getImageDimensions buffer = Normal (Some d)
        <-> firstn 8 buffer = PNG_SIGNATURE /\ 24 <= length buffer
            /\ d = {| width := bigEndian buffer 16 4;
                      height := bigEndian buffer 20 4 |})
  /\ getImageDimensions buffer <> Throw TypeError
  /\ NoExit (getImageDimensions buffer).
Proof.
  destruct (getImageDimensions_cases buffer)
    as [[Hsig E]|[(Hsig & Hlen & E)|(Hsig & Hlen & E)]]; rewrite E;
    unfold NoExit;
    repeat split; try discriminate; try tauto; try lia;
    try (intros; intuition (try discriminate; try lia; try congruence)).
Qed.

Lemma bigEndian_firstn (buffer : Buffer) (off n m : nat) :
  (off + n <= m)%nat ->
  bigEndian (firstn m buffer) off n = bigEndian buffer off n.
Proof.
  intros H. unfold bigEndian. f_equal.
  replace m with (off + (m - off))%nat by lia.
  rewrite <- firstn_skipn_comm, firstn_firstn.
  f_equal. lia.
Qed.

Lemma getImageDimensions_header (buffer : Buffer) :
  getImageDimensions (firstn 24 buffer) = getImageDimensions buffer.
Proof.
  assert (Hf : firstn 8 (firstn 24 buffer) = firstn 8 buffer)
    by (rewrite firstn_firstn; reflexivity).
  assert (Hl : length (firstn 24 buffer) = Z.min 24 (length buffer))
    by (unfold length; rewrite length_firstn; lia).
  destruct (getImageDimensions_cases buffer)
    as [[Hsig E]|[(Hsig & Hlen & E)|(Hsig & Hlen & E)]]; rewrite E.
  - apply getImageDimensions_not_png. congruence.
  - destruct (getImageDimensions_cases (firstn 24 buffer))
      as [[Hsig' _]|[(_ & _ & E')|(_ & Hlen' & _)]];
      [congruence | | lia].
    rewrite E', !bigEndian_firstn by lia. reflexivity.
  - destruct (getImageDimensions_cases (firstn 24 buffer))
      as [[Hsig' _]|[(_ & Hlen' & _)|(_ & _ & E')]];
      [congruence | lia | assumption].
Qed.

(** X2: The reader looks at the first 24 bytes only: two files that agree
    on them get the same answer. *)
Theorem reader_reads_header_only (a b : Buffer) :
  firstn 24 a = firstn 24 b ->
  getImageDimensions a = getImageDimensions b.
Proof.
  intros H.
  rewrite <- (getImageDimensions_header a), <- (getImageDimensions_header b).
  rewrite H. reflexivity.
Qed.

Lemma reader_reads_header_only_witness :
  getImageDimensions png1024 = getImageDimensions png1024filled.
Proof.
  apply (reader_reads_header_only png1024 png1024filled). reflexivity.
Defined.

(** *** The JPG loop *)

Lemma bigEndian2_range (buffer : Buffer) (off : nat) :
  0 <= bigEndian buffer off 2 < 65536.
Proof.
  unfold bigEndian. generalize (skipn off buffer) as l.
  intros [|a [|b r]]; cbn [firstn fold_left];
    try pose proof (u8_range a); try pose proof (u8_range b); lia.
Qed.

Lemma readUInt16BE_outside (buffer : Buffer) (offset : Z) :
  offset < 0 \/ length buffer - 2 < offset ->
  readUInt16BE buffer offset = Throw RangeError.
Proof.
  intros H. unfold readUInt16BE.
  destruct H as [H|H].
  - rewrite (at_outside buffer offset) by lia. reflexivity.
  - rewrite (at_outside buffer (offset + 1)) by lia.
    destruct (at_ buffer offset); reflexivity.
Qed.

(** X3: When the segments from offset [i] on lead to a Start Of Frame
    marker at offset [k], the loop returns the 16-bit values at [k + 7]
    and [k + 5] as width and height; both are below 65536, and [k] is
    the first marker from [i] on that is a Start Of Frame. *)
Theorem jpeg_scan_first_frame (buffer : Buffer) (i k : Z) :
  ScanReaches buffer i k ->
  jpegScan buffer i
  = Normal (Some {| width := bigEndian buffer (Z.to_nat (k + 7)) 2;
                    height := bigEndian buffer (Z.to_nat (k + 5)) 2 |})
  /\ i <= k
  /\ isStartOfFrame buffer k = true
  /\ 0 <= bigEndian buffer (Z.to_nat (k + 7)) 2 < 65536
  /\ 0 <= bigEndian buffer (Z.to_nat (k + 5)) 2 < 65536.
Proof.
  intros H. split; [apply jpegScan_reaches; assumption|].
  split; [|split; [|split; apply bigEndian2_range]].
  - induction H as [i Hi Hlen Hsof | i k Hi Hlen Hsof _ IH]; [lia|].
    pose proof (bigEndian2_range buffer (Z.to_nat (i + 2))). lia.
  - induction H; assumption.
Qed.

Lemma jpeg_scan_first_frame_witness :
  jpegScan jpeg768x1024 2
  = Normal (Some {| width := bigEndian jpeg768x1024 (Z.to_nat (8 + 7)) 2;
                    height := bigEndian jpeg768x1024 (Z.to_nat (8 + 5)) 2 |})
  /\ 2 <= 8
  /\ isStartOfFrame jpeg768x1024 8 = true
  /\ 0 <= bigEndian jpeg768x1024 (Z.to_nat (8 + 7)) 2 < 65536
  /\ 0 <= bigEndian jpeg768x1024 (Z.to_nat (8 + 5)) 2 < 65536.
Proof.
  apply (jpeg_scan_first_frame jpeg768x1024 2 8).
  apply scan_segment; [lia | by_computation | reflexivity |].
  apply scan_frame; [lia | by_computation | reflexivity].
Defined.

(** X4: The loop guard [i < buffer.length] does not cover the length read
    at [i + 2]: from an offset at or beyond the end the loop falls
    through to [null], but with one to three bytes left it raises a
    RangeError. *)
Theorem jpeg_scan_end (buffer : Buffer) (i : Z) :
  (length buffer <= i -> jpegScan buffer i = Normal None)
  /\ (0 <= i < length buffer -> length buffer < i + 4 ->
      jpegScan buffer i = Throw RangeError).
Proof.
  split.
  - intros H. rewrite jpegScan_unfold.
    destruct (Z.ltb_spec i (length buffer)); [lia | reflexivity].
  - intros H1 H2. rewrite jpegScan_unfold.
    destruct (Z.ltb_spec i (length buffer)); [|lia].
    rewrite readUInt16BE_outside by lia. reflexivity.
Qed.

Lemma jpeg_scan_end_witness :
  jpegScan jpegStub 3 = Normal None
  /\ jpegScan jpegStub 2 = Throw RangeError.
Proof.
  split.
  - apply (proj1 (jpeg_scan_end jpegStub 3)). by_computation.
  - apply (proj2 (jpeg_scan_end jpegStub 2)); by_computation.
Defined.

(** *** What the asset pass can end in *)

Lemma countFiles_Directory (name : string) (entries : list Dirent) :
  countFiles (Directory name entries) = countAll entries.
Proof.
  cbn [countFiles]. induction entries as [|e rest IH]; [reflexivity|].
  cbn [countAll]. rewrite <- IH. reflexivity.
Qed.

Lemma validateTransparency_outcome (rel ext : string) (buffer : Buffer)
    (d : option Dimensions) (errors : list string) :
  validateTransparency rel ext buffer d errors = Normal errors
  \/ validateTransparency rel ext buffer d errors
     = Normal (errors ++ [transparentImage rel])
  \/ validateTransparency rel ext buffer d errors = Throw RangeError.
Proof.
  unfold validateTransparency.
  destruct (String.eqb ext ".png"), d as [d|]; auto.
  destruct (readUInt32BE_total buffer 0) as [(w0 & ->)| ->]; auto.
  cbn [bind].
  destruct (readUInt32BE_total buffer (sub (width d) 1)) as [(w1 & ->)| ->];
    auto.
  cbn [bind].
  destruct (readUInt32BE_total buffer
              (rem (mul (width d) (sub (height d) 1)) (length buffer)))
    as [(w2 & ->)| ->]; auto.
  cbn [bind].
  destruct (readUInt32BE_total buffer
              (Z.min (sub (mul (width d) (height d)) 1)
                 (sub (length buffer) 4)))
    as [(w3 & ->)| ->]; auto.
  cbn [bind]. destruct (_ || _); auto.
Qed.

Lemma readable_Directory (name : string) (entries : list Dirent) :
  readable (Directory name entries) = allReadable entries.
Proof.
  cbn [readable]. induction entries as [|e rest IH]; [reflexivity|].
  cbn [allReadable forallb]. rewrite IH. reflexivity.
Qed.

Lemma processFile_accumulates (dirPath name : string) (content : Buffer)
    (errors : list string) :
  Accumulates 1 false errors (processFile dirPath name content errors).
Proof.
  unfold processFile.
  destruct (isImageExt (toLowerCase (extname name)));
    [|cbn; split; [reflexivity | eauto]].
  set (rel := relative FOLDER_PATH (join dirPath name)).
  set (ext := toLowerCase (extname name)).
  destruct (getImageDimensions_cases content)
    as [[_ E]|[(_ & _ & E)|(_ & _ & E)]]; rewrite E; cbn [bind];
    [| |left; reflexivity].
  all: rewrite validateDimensions_cases;
    destruct (validateFileName_cases rel ext errors) as (n & -> & Hn);
    match goal with
    | |- context [validateTransparency ?r ?e ?b ?d ?l] =>
        destruct (validateTransparency_outcome r e b d l)
          as [-> | [-> | ->]]
    end; cbn [Accumulates]; try (left; reflexivity);
    rewrite <- ?app_assoc; eexists; (split; [reflexivity|]);
    rewrite ?length_app;
    destruct Hn as [-> | [-> | ->]];
    match goal with
    | |- context [if ?b then _ else _] => destruct b
    end; simpl; lia.
Qed.

Lemma accumulates_bind (n m : nat) (u v : bool) (errors : list string)
    (r : completion (list string))
    (k : list string -> completion (list string)) :
  Accumulates n u errors r ->
  (forall errs, Accumulates m v errs (k errs)) ->
  Accumulates (n + m) (u || v) errors (bind r k).
Proof.
  intros Hr Hk. destruct r as [errs|e|c out]; cbn [bind].
  - destruct Hr as (a1 & -> & L1). specialize (Hk (errors ++ a1)).
    destruct (k (errors ++ a1)) as [errs'|e|c out]; cbn [Accumulates] in *.
    + destruct Hk as (a2 & -> & L2). exists (a1 ++ a2).
      rewrite app_assoc, length_app. split; [reflexivity | lia].
    + destruct Hk as [->|[-> ->]]; [left; reflexivity|].
      right. rewrite orb_true_r. split; reflexivity.
    + assumption.
  - cbn [Accumulates] in *. destruct Hr as [->|[-> ->]]; [left; reflexivity|].
    right. split; reflexivity.
  - assumption.
Qed.

Lemma processDirectory_accumulates_from (entries : list Dirent) :
  Forall (fun entry =>
            forall dirPath errors,
              Accumulates (countFiles entry) (negb (readable entry)) errors
                (processEntry dirPath entry errors)) entries ->
  forall dirPath errors,
    Accumulates (countAll entries) (negb (allReadable entries)) errors
      (processDirectory dirPath entries errors).
Proof.
  induction 1 as [|entry rest He _ IH]; intros dirPath errors.
  - cbn [processDirectory Accumulates]. exists [].
    split; [symmetry; apply app_nil_r | apply Nat.le_0_l].
  - cbn [processDirectory countAll allReadable forallb].
    rewrite negb_andb.
    apply accumulates_bind; [apply He | intros errs; apply IH].
Qed.

Lemma processEntry_accumulates (entry : Dirent) :
  forall dirPath errors,
    Accumulates (countFiles entry) (negb (readable entry)) errors
      (processEntry dirPath entry errors).
Proof.
  induction entry
    as [name content | name entries IH | name isDirectory]
    using Dirent_tree_ind;
    intros dirPath errors.
  - cbn [processEntry countFiles readable negb]. destruct (allowListed name).
    + cbn [Accumulates]. exists [].
      split; [symmetry; apply app_nil_r | apply Nat.le_0_l].
    + apply processFile_accumulates.
  - rewrite processEntry_Directory, countFiles_Directory, readable_Directory.
    apply processDirectory_accumulates_from. assumption.
  - cbn [processEntry countFiles readable negb].
    destruct isDirectory; [right; split; reflexivity|].
    destruct (allowListed name).
    + cbn [Accumulates]. exists [].
      split; [symmetry; apply app_nil_r | apply Nat.le_0_l].
    + destruct (isImageExt (toLowerCase (extname name)));
        cbn [Accumulates]; [right; split; reflexivity|].
      split; [reflexivity | eauto].
Qed.

Lemma processDirectory_accumulates (dirPath : string) (entries : list Dirent)
    (errors : list string) :
  Accumulates (countAll entries) (negb (allReadable entries)) errors
    (processDirectory dirPath entries errors).
Proof.
  apply processDirectory_accumulates_from.
  apply Forall_forall. intros entry _. apply processEntry_accumulates.
Qed.

(** X5: The traversal only ever appends to [errors]: what it returns is the
    list it started with followed by at most three messages per file
    of the tree. *)
Theorem errors_only_grow (dirPath : string) (entries : list Dirent)
    (errors errors' : list string) :
  processDirectory dirPath entries errors = Normal errors' ->
  exists added,
    errors' = errors ++ added
    /\ (List.length added <= 3 * countAll entries)%nat.
Proof.
  intros H.
  pose proof (processDirectory_accumulates dirPath entries errors) as A.
  rewrite H in A. exact A.
Qed.

Lemma errors_only_grow_witness :
  exists added,
    [invalidTokenName "tokens/a.jpg"; invalidDimensions "tokens/a.jpg" None]
    = [] ++ added
    /\ (List.length added
        <= 3 * countAll [Directory "tokens" [File "a.jpg" []]])%nat.
Proof.
  apply (errors_only_grow FOLDER_PATH [Directory "tokens" [File "a.jpg" []]]
           []). reflexivity.
Defined.

(** X6: How the asset pass fails.  An exception it lets through is the
    RangeError of a Buffer read or, only when the tree holds an entry
    that cannot be read, the error of the file system; it is never a
    TypeError.  When the pass ends the process the status is 1, after
    the single line for an unsupported file or after the count and the
    list of at least one error. *)
Theorem asset_pass_failures (assets : list Dirent) :
  (forall e,
     validateAssetsImages assets = Throw e ->
     e = RangeError \/ (e = SystemError /\ allReadable assets = false))
  /\ (forall code console,
        validateAssetsImages assets = ProcessExit code console ->
        code = 1
        /\ ((exists path, console = [unsupportedFileType path])
            \/ (exists error errors,
                  processDirectory FOLDER_PATH assets []
                  = Normal (error :: errors)
                  /\ console
                     = (showNat (S (List.length errors))
                        +++ " Errors found in assets folder:")
                       :: map red (error :: errors)))).
Proof.
  pose proof (processDirectory_accumulates FOLDER_PATH assets []) as A.
  unfold validateAssetsImages.
  destruct (processDirectory FOLDER_PATH assets []) as [errors|e|c out];
    cbn [bind Accumulates] in *.
  - destruct errors as [|error errors]; cbn -[showNat].
    + split; intros; discriminate.
    + split; [intros; discriminate|].
      intros code console [= <- <-]. split; [reflexivity|].
      right. exists error, errors. split; reflexivity.
  - split; [|intros; discriminate].
    intros e' [= <-]. destruct A as [->|[-> U]]; [left; reflexivity|].
    right. split; [reflexivity|]. apply negb_true_iff. assumption.
  - split; [intros; discriminate|].
    intros code console [= <- <-]. destruct A as (-> & path & ->).
    split; [reflexivity|]. left. eauto.
Qed.

Lemma asset_pass_failures_witness :
  (SystemError = RangeError
   \/ (SystemError = SystemError
       /\ allReadable
            [Directory "tokens" [Unreadable "link.png" false]] = false))
  /\ (1 = 1
      /\ ((exists path,
             ["src/assets/tokens/notes.txt: Unsupported file type!"]
             = [unsupportedFileType path])
          \/ (exists error errors,
                processDirectory FOLDER_PATH assetsWithNotes []
                = Normal (error :: errors)
                /\ ["src/assets/tokens/notes.txt: Unsupported file type!"]
                   = (showNat (S (List.length errors))
                      +++ " Errors found in assets folder:")
                     :: map red (error :: errors)))).
Proof.
  split.
  - apply (proj1 (asset_pass_failures
                    [Directory "tokens" [Unreadable "link.png" false]])
             SystemError).
    reflexivity.
  - apply (proj2 (asset_pass_failures assetsWithNotes) 1
             ["src/assets/tokens/notes.txt: Unsupported file type!"]).
    reflexivity.
Defined.

(** X7: The exit status of a run is 0 or 1, and it is 0 exactly when the
    asset traversal returned without a single error and the metadata
    pass returned; the warnings of the metadata pass play no part. *)
Theorem exit_status_zero (existsSync : string -> bool) (dirname : string)
    (assets : list Dirent) (jsonMetadata : Metadata) :
  let status := exitStatus (main existsSync dirname assets jsonMetadata) in
  (status = 0 \/ status = 1)
  /\ (status = 0
      <-> processDirectory FOLDER_PATH assets [] = Normal []
          /\ exists warnings,
               metadataErrors existsSync dirname jsonMetadata
               = Normal warnings).
Proof.
  cbv zeta.
  pose proof (processDirectory_accumulates FOLDER_PATH assets []) as A.
  pose proof (metadataErrors_NoExit existsSync dirname jsonMetadata) as N.
  unfold main, validateAssetsImages, validateMetadataImages.
  destruct (processDirectory FOLDER_PATH assets []) as [errors|e|c out];
    cbn [bind Accumulates] in *.
  - destruct errors as [|error errors].
    + cbn [List.length Nat.ltb Nat.leb bind].
      destruct (metadataErrors existsSync dirname jsonMetadata)
        as [warnings|e|c out]; cbn [bind].
      * destruct warnings;
          (split; [left; reflexivity|]); split; eauto; reflexivity.
      * cbn [exitStatus]. split; [auto|]. split; [discriminate|].
        intros (_ & w & [=]).
      * exfalso. eapply N. reflexivity.
    + cbn [List.length Nat.ltb Nat.leb bind exitStatus].
      split; [auto|]. split; [discriminate | intros ([=] & _)].
  - cbn [exitStatus]. split; [auto|].
    split; [discriminate | intros ([=] & _)].
  - destruct A as (-> & _). cbn [exitStatus].
    split; [auto|]. split; [discriminate | intros ([=] & _)].
Qed.

Lemma exit_status_zero_witness :
  exitStatus (main sampleExists "/repo/scripts" [] sampleMetadata) = 0.
Proof.
  apply (proj2 (exit_status_zero sampleExists "/repo/scripts" []
                  sampleMetadata)).
  split; [reflexivity|].
  exists [tokenNotFound "undefined"]. reflexivity.
Defined.

(** *** Files that are not PNG *)

(** X8: An image file whose bytes do not start with the PNG signature, a
    genuine JPEG included, is never accepted and never makes the pass
    raise: whatever its extension and size, it gets the naming verdict
    of its path followed by the dimension error with [undefined]
    dimensions, and no transparency check. *)
Theorem non_png_content_rejected (dirPath name : string) (content : Buffer)
    (errors : list string) :
  isImageExt (toLowerCase (extname name)) = true ->
  firstn 8 content <> PNG_SIGNATURE ->
  let rel := relative FOLDER_PATH (join dirPath name) in
  processFile dirPath name content errors
  = Normal (validateFileName rel (toLowerCase (extname name)) errors
            ++ [invalidDimensions rel None]).
Proof.
  intros Himg Hsig rel.
  rewrite processFile_image by assumption.
  rewrite (getImageDimensions_not_png content Hsig). cbn [bind].
  fold rel. unfold validateTransparency.
  destruct (String.eqb (toLowerCase (extname name)) ".png"); reflexivity.
Qed.

Lemma non_png_content_rejected_witness :
  processFile (join FOLDER_PATH "tokens") ("0x" +++ hex40 +++ ".jpg")
    jpeg768x1024 []
  = Normal [invalidDimensions ("tokens/0x" +++ hex40 +++ ".jpg") None].
Proof.
  apply (non_png_content_rejected (join FOLDER_PATH "tokens")
           ("0x" +++ hex40 +++ ".jpg") jpeg768x1024 []);
    [reflexivity | discriminate].
Defined.

(** *** The corner check *)

Lemma readUInt32BE_Normal (buffer : Buffer) (offset word : Z) :
  readUInt32BE buffer offset = Normal word ->
  0 <= offset <= length buffer - 4.
Proof.
  intros H.
  destruct (Z_lt_ge_dec offset 0) as [Hlo|Hlo];
    [rewrite readUInt32BE_outside in H by lia; discriminate|].
  destruct (Z_lt_ge_dec (length buffer - 4) offset) as [Hhi|Hhi];
    [rewrite readUInt32BE_outside in H by lia; discriminate|].
  lia.
Qed.

(** The word at offset 0 of a PNG file is the start of the signature. *)
Lemma topLeft_signature (buffer : Buffer) :
  firstn 8 buffer = PNG_SIGNATURE ->
  readUInt32BE buffer 0 = Normal 2303741511.
Proof.
  intros H.
  destruct buffer as [|b0 [|b1 [|b2 [|b3 rest]]]]; try discriminate.
  injection H as -> -> -> -> _. reflexivity.
Qed.

(** X9: The "top-left" word is read from the PNG signature, so it is never
    zero: when a file gets the transparency error, one of the three
    other words was zero. *)
Theorem transparency_error_cause (rel : string) (buffer : Buffer)
    (d : Dimensions) (errors : list string) :
  firstn 8 buffer = PNG_SIGNATURE ->
  validateTransparency rel ".png" buffer (Some d) errors
  = Normal (errors ++ [transparentImage rel]) ->
  readUInt32BE buffer 0 = Normal 2303741511
  /\ exists offset,
       In offset
         [sub (width d) 1;
          rem (mul (width d) (sub (height d) 1)) (length buffer);
          Z.min (sub (mul (width d) (height d)) 1) (sub (length buffer) 4)]
       /\ readUInt32BE buffer offset = Normal 0.
Proof.
  intros Hsig H. split; [apply topLeft_signature; assumption|].
  rewrite validateTransparency_png, (topLeft_signature buffer Hsig) in H.
  cbn [bind] in H.
  destruct (readUInt32BE buffer (sub (width d) 1)) as [w1| |] eqn:E1;
    try discriminate.
  cbn [bind] in H.
  destruct (readUInt32BE buffer
              (rem (mul (width d) (sub (height d) 1)) (length buffer)))
    as [w2| |] eqn:E2; try discriminate.
  cbn [bind] in H.
  destruct (readUInt32BE buffer
              (Z.min (sub (mul (width d) (height d)) 1)
                 (sub (length buffer) 4)))
    as [w3| |] eqn:E3; try discriminate.
  cbn [bind] in H.
  change (2303741511 =? 0) with false in H. cbn [orb] in H.
  destruct (w1 =? 0) eqn:Z1.
  { apply Z.eqb_eq in Z1. subst. eexists. split; [left; reflexivity|].
    assumption. }
  destruct (w2 =? 0) eqn:Z2.
  { apply Z.eqb_eq in Z2. subst. eexists.
    split; [right; left; reflexivity|]. assumption. }
  destruct (w3 =? 0) eqn:Z3.
  { apply Z.eqb_eq in Z3. subst. eexists.
    split; [right; right; left; reflexivity|]. assumption. }
  cbn [orb] in H. injection H as H. exfalso.
  eapply push_changes. symmetry. eassumption.
Qed.

Lemma transparency_error_cause_witness :
  readUInt32BE png8padded 0 = Normal 2303741511
  /\ exists offset,
       In offset
         [sub 8 1; rem (mul 8 (sub 8 1)) (length png8padded);
          Z.min (sub (mul 8 8) 1) (sub (length png8padded) 4)]
       /\ readUInt32BE png8padded offset = Normal 0.
Proof.
  apply (transparency_error_cause "tokens/a.png" png8padded
           {| width := 8; height := 8 |} []); reflexivity.
Defined.

(** X10: A PNG file that declares a width or a height of zero is not
    reported: the corner check reads at a negative offset and the file
    ends the pass in a RangeError. *)
Theorem zero_dimension_png_raises (dirPath name : string) (buffer : Buffer)
    (d : Dimensions) (errors : list string) :
  toLowerCase (extname name) = ".png" ->
  getImageDimensions buffer = Normal (Some d) ->
  width d = 0 \/ height d = 0 ->
  processFile dirPath name buffer errors = Throw RangeError.
Proof.
  intros Hext Hd Hz.
  destruct (getImageDimensions_Some buffer d Hd)
    as (Hsig & Hlen & _ & _ & Hw & Hh).
  rewrite processFile_image by (rewrite Hext; reflexivity).
  rewrite Hd, Hext. cbn [bind].
  rewrite validateTransparency_png, (topLeft_signature buffer Hsig).
  cbn [bind]. rewrite (sub_exact (width d) 1) by lia.
  destruct (Z.eq_dec (width d) 0) as [W0|W0].
  - rewrite readUInt32BE_outside by lia. reflexivity.
  - assert (H0 : height d = 0) by tauto.
    destruct (readUInt32BE buffer (width d - 1)) as [w1|e|c out] eqn:E1.
    + apply readUInt32BE_Normal in E1. cbn [bind].
      rewrite H0. rewrite (sub_exact 0 1) by lia.
      rewrite mul_exact by lia. unfold rem.
      replace (width d * (0 - 1)) with (- width d) by lia.
      rewrite Z.rem_opp_l by lia.
      rewrite Z.rem_small by lia.
      rewrite readUInt32BE_outside by lia. reflexivity.
    + destruct (readUInt32BE_total buffer (width d - 1)) as [(w & E)|E];
        rewrite E in E1; [discriminate|].
      injection E1 as <-. reflexivity.
    + destruct (readUInt32BE_total buffer (width d - 1)) as [(w & E)|E];
        rewrite E in E1; discriminate.
Qed.

Lemma zero_dimension_png_raises_witness :
  processFile (join FOLDER_PATH "tokens") "a.png" png0 [] = Throw RangeError.
Proof.
  apply (zero_dimension_png_raises (join FOLDER_PATH "tokens") "a.png" png0
           {| width := 0; height := 0 |} []); try reflexivity.
  left. reflexivity.
Defined.

(** *** A file that passes *)

Lemma prefix_append (pat s : string) : String.prefix pat (pat +++ s) = true.
Proof.
  induction pat as [|c pat IH]; [apply prefix_empty|].
  cbn [String.append String.prefix].
  destruct (ascii_dec c c); [assumption|congruence].
Qed.

Lemma length_append (a b : string) :
  String.length (a +++ b) = (String.length a + String.length b)%nat.
Proof.
  induction a as [|c a IH]; [reflexivity|].
  cbn [String.append String.length]. rewrite IH. reflexivity.
Qed.

Lemma allHex_no_dot (s : string) : allHex s = true -> includes "." s = false.
Proof.
  induction s as [|c s IH]; intros H; [reflexivity|].
  cbn [allHex] in H. apply andb_true_iff in H as [Hc Hs].
  cbn [includes String.prefix].
  destruct (ascii_dec "." c) as [<-|_]; [discriminate|].
  auto.
Qed.

Lemma lastDot_png (base : string) :
  includes "." base = false ->
  lastDot (base +++ ".png") = Some ".png".
Proof.
  induction base as [|c base IH]; intros H; [reflexivity|].
  cbn [includes] in H. apply orb_false_iff in H as [_ H].
  cbn [String.append lastDot]. rewrite IH by assumption. reflexivity.
Qed.

Lemma extname_address_png (digits : string) :
  allHex digits = true ->
  extname ("0x" +++ digits +++ ".png") = ".png".
Proof.
  intros H. unfold extname.
  change ("0x" +++ digits +++ ".png") with (("0x" +++ digits) +++ ".png").
  rewrite lastDot_png
    by (cbn [String.append includes String.prefix];
        destruct (ascii_dec "." "0"); [discriminate|];
        destruct (ascii_dec "." "x"); [discriminate|];
        apply allHex_no_dot; assumption).
  rewrite length_append. cbn [String.append String.length].
  destruct (4 =? S (S (String.length digits)) + 4)%nat eqn:E;
    [apply Nat.eqb_eq in E; lia|].
  reflexivity.
Qed.

(** The corner check when the four reads fit and the arithmetic is
    exact. *)
Lemma validateTransparency_inside (rel : string) (buffer : Buffer)
    (d : Dimensions) (errors : list string) :
  0 <= width d < 2 ^ 32 -> 0 <= height d < 2 ^ 32 ->
  1 <= width d <= length buffer - 3 ->
  1 <= height d ->
  width d * height d < 2 ^ 53 ->
  (width d * (height d - 1)) mod length buffer <= length buffer - 4 ->
  validateTransparency rel ".png" buffer (Some d) errors
  = Normal
      (if existsb (fun off => bigEndian buffer (Z.to_nat off) 4 =? 0)
            [0; width d - 1; (width d * (height d - 1)) mod length buffer;
             Z.min (width d * height d - 1) (length buffer - 4)]
       then errors ++ [transparentImage rel]
       else errors).
Proof.
  intros Hw Hh Hw1 Hh1 Hp Hbl.
  rewrite validateTransparency_png.
  rewrite (sub_exact (width d) 1), (sub_exact (height d) 1) by lia.
  rewrite (mul_exact (width d) (height d - 1)) by nia.
  rewrite (mul_exact (width d) (height d)) by nia.
  rewrite (sub_exact (width d * height d) 1) by nia.
  rewrite min_clamp by nia.
  unfold rem. rewrite Z.rem_mod_nonneg by nia.
  assert (Hm : 0 <= (width d * (height d - 1)) mod length buffer)
    by (apply Z.mod_pos_bound; lia).
  destruct (readUInt32BE_inside buffer 0) as (w0 & -> & E0); [lia|].
  destruct (readUInt32BE_inside buffer (width d - 1)) as (w1 & -> & E1);
    [lia|].
  destruct (readUInt32BE_inside buffer
              ((width d * (height d - 1)) mod length buffer))
    as (w2 & -> & E2); [lia|].
  destruct (readUInt32BE_inside buffer
              (Z.min (width d * height d - 1) (length buffer - 4)))
    as (w3 & -> & E3); [nia|].
  cbn [bind existsb].
  rewrite <- E0, <- E1, <- E2, <- E3, orb_false_r, !orb_assoc.
  destruct (_ || _); reflexivity.
Qed.

(** X11: What an accepted token image looks like.  A file [0x<40 hex
    digits>.png] directly in [tokens], whose header declares a square of
    at least 1024 pixels, whose three computed corner offsets lie
    inside the file and whose words there are not zero, adds no error
    at all. *)
Theorem clean_token_png_accepted (digits : string) (buffer : Buffer)
    (n : Z) (errors : list string) :
  String.length digits = 40%nat ->
  allHex digits = true ->
  getImageDimensions buffer = Normal (Some {| width := n; height := n |}) ->
  1024 <= n <= length buffer - 3 ->
  n * n < 2 ^ 53 ->
  (n * (n - 1)) mod length buffer <= length buffer - 4 ->
  bigEndian buffer (Z.to_nat (n - 1)) 4 <> 0 ->
  bigEndian buffer (Z.to_nat ((n * (n - 1)) mod length buffer)) 4 <> 0 ->
  bigEndian buffer (Z.to_nat (Z.min (n * n - 1) (length buffer - 4))) 4
  <> 0 ->
  processFile (join FOLDER_PATH "tokens") ("0x" +++ digits +++ ".png")
    buffer errors
  = Normal errors.
Proof.
  intros Hlen Hhex Hd Hn Hp Hbl W1 W2 W3.
  destruct (getImageDimensions_Some buffer _ Hd)
    as (Hsig & _ & _ & _ & Hw & Hh).
  cbn [width height] in Hw, Hh.
  pose proof (extname_address_png digits Hhex) as Hext.
  rewrite processFile_image by (rewrite Hext; reflexivity).
  rewrite Hd, Hext. cbn [bind].
  change (toLowerCase ".png") with ".png".
  set (rel := relative FOLDER_PATH
                (join (join FOLDER_PATH "tokens")
                   ("0x" +++ digits +++ ".png"))).
  assert (Hname : validateFileName rel ".png" errors = errors).
  { assert (Hdot : includes "." ("0x" +++ digits) = false).
    { cbn [String.append includes String.prefix].
      destruct (ascii_dec "." "0"); [discriminate|].
      destruct (ascii_dec "." "x"); [discriminate|].
      apply allHex_no_dot; assumption. }
    assert (E : replaceFirst "tokens/" (replaceFirst ".png" rel)
                = "0x" +++ digits).
    { apply (stripped_direct "tokens" ("0x" +++ digits) ".png");
        [left; reflexivity | reflexivity | assumption]. }
    apply (validateFileName_tokens rel ".png" errors); [reflexivity|].
    cbv zeta. rewrite E.
    apply hexAddressRegexTest_iff.
    cbn [String.append hexAddressRegexTest].
    rewrite Hlen, Hhex. reflexivity. }
  rewrite Hname.
  assert (Hdim : validateDimensions rel
                   (Some {| width := n; height := n |}) errors = errors).
  { unfold validateDimensions, badDimensions. cbn [width height].
    destruct (Z.ltb_spec n 1024); [lia|].
    rewrite Z.eqb_refl. reflexivity. }
  rewrite Hdim.
  rewrite validateTransparency_inside; cbn [width height];
    try assumption; try lia.
  cbn [existsb].
  destruct (readUInt32BE_inside buffer 0) as (w0 & R0 & E0); [lia|].
  rewrite (topLeft_signature buffer Hsig) in R0. injection R0 as <-.
  change (Z.to_nat 0) with 0%nat in *. rewrite <- E0.
  apply Z.eqb_neq in W1, W2, W3. rewrite W1, W2, W3. reflexivity.
Qed.

Lemma clean_token_png_accepted_witness :
  processFile (join FOLDER_PATH "tokens") ("0x" +++ hex40 +++ ".png")
    png1024filled []
  = Normal [].
Proof.
  apply (clean_token_png_accepted hex40 png1024filled 1024 []);
    by_computation.
Defined.

(** *** Entries that do not count *)

Lemma processDirectory_app (dirPath : string) (before after : list Dirent)
    (errors : list string) :
  processDirectory dirPath (before ++ after) errors
  = (errors <- processDirectory dirPath before errors ;;
     processDirectory dirPath after errors).
Proof.
  revert errors. induction before as [|entry rest IH]; intros errors.
  - reflexivity.
  - cbn [app processDirectory].
    destruct (processEntry dirPath entry errors); cbn [bind]; auto.
Qed.

Lemma inert_entry_skipped (entry : Dirent) :
  Inert entry ->
  forall dirPath errors, processEntry dirPath entry errors = Normal errors.
Proof.
  induction entry as [name content | name entries IH | name isDirectory]
    using Dirent_tree_ind;
    intros H dirPath errors; inversion H as [? ? Ha | ? Ha | ? ? Hall]; subst.
  - cbn [processEntry]. rewrite Ha. reflexivity.
  - rewrite processEntry_Directory.
    generalize (join dirPath name) as dir. intros dir.
    induction entries as [|e rest IHrest]; [reflexivity|].
    inversion IH as [|? ? He Hrest]; subst.
    inversion Hall as [|? ? Ie Irest]; subst.
    cbn [processDirectory]. rewrite (He Ie). cbn [bind].
    apply IHrest; [assumption | constructor; assumption | assumption].
  - cbn [processEntry]. rewrite Ha. reflexivity.
Qed.

(** X12: Files on the allow list, empty directories and directories that
    hold nothing but such entries leave no trace: taking one out of a
    listing, wherever it stands, does not change what the traversal
    ends in. *)
Theorem inert_entries_leave_no_trace (dirPath : string) (entry : Dirent)
    (before after : list Dirent) (errors : list string) :
  Inert entry ->
  processDirectory dirPath (before ++ entry :: after) errors
  = processDirectory dirPath (before ++ after) errors.
Proof.
  intros H. rewrite !processDirectory_app.
  destruct (processDirectory dirPath before errors); cbn [bind]; auto.
  cbn [processDirectory]. rewrite (inert_entry_skipped entry H).
  reflexivity.
Qed.

Lemma inert_entries_leave_no_trace_witness :
  processDirectory FOLDER_PATH
    ([File "a.jpg" []]
     ++ Directory "validators" [File "validator-default.png" []; Directory "old" []]
        :: [File "b.png" png8]) []
  = processDirectory FOLDER_PATH ([File "a.jpg" []] ++ [File "b.png" png8]) [].
Proof.
  apply (inert_entries_leave_no_trace FOLDER_PATH
           (Directory "validators"
              [File "validator-default.png" []; Directory "old" []])).
  repeat constructor.
Defined.

(** *** The two name patterns *)

Lemma isHexDigit_lowerChar (c : ascii) :
  isHexDigit (lowerChar c) = isHexDigit c.
Proof. destruct c as [[] [] [] [] [] [] [] []]; reflexivity. Qed.

Lemma zero_lowerChar (c : ascii) :
  Ascii.eqb (lowerChar c) "0" = Ascii.eqb c "0".
Proof. destruct c as [[] [] [] [] [] [] [] []]; reflexivity. Qed.

Lemma x_lowerChar (c : ascii) :
  Ascii.eqb (lowerChar c) "x" || Ascii.eqb (lowerChar c) "X"
  = Ascii.eqb c "x" || Ascii.eqb c "X".
Proof. destruct c as [[] [] [] [] [] [] [] []]; reflexivity. Qed.

Lemma allHex_toLowerCase (s : string) : allHex (toLowerCase s) = allHex s.
Proof.
  induction s as [|c s IH]; [reflexivity|].
  cbn [toLowerCase allHex]. rewrite isHexDigit_lowerChar, IH. reflexivity.
Qed.

Lemma length_toLowerCase (s : string) :
  String.length (toLowerCase s) = String.length s.
Proof.
  induction s as [|c s IH]; [reflexivity|].
  cbn [toLowerCase String.length]. rewrite IH. reflexivity.
Qed.

Lemma hexAddressRegexTest_toLowerCase (n : nat) (s : string) :
  hexAddressRegexTest n (toLowerCase s) = hexAddressRegexTest n s.
Proof.
  destruct s as [|c0 [|c1 digits]]; try reflexivity.
  cbn [toLowerCase hexAddressRegexTest].
  rewrite zero_lowerChar, x_lowerChar, allHex_toLowerCase,
    length_toLowerCase.
  reflexivity.
Qed.

Lemma hexAddressRegexTest_length (n : nat) (s : string) :
  hexAddressRegexTest n s = true -> String.length s = (n + 2)%nat.
Proof.
  destruct s as [|c0 [|c1 digits]]; try discriminate.
  cbn [hexAddressRegexTest String.length].
  rewrite !andb_true_iff, Nat.eqb_eq. intros [[_ H] _]. lia.
Qed.

(** X13: The token and validator patterns do not look at letter case, accept
    only strings of 42 and of 98 characters, and so never both accept
    the same name. *)
Theorem address_patterns (s : string) :
  tokenRegex (toLowerCase s) = tokenRegex s
  /\ validatorRegex (toLowerCase s) = validatorRegex s
  /\ (tokenRegex s = true -> String.length s = 42%nat)
  /\ (validatorRegex s = true -> String.length s = 98%nat)
  /\ tokenRegex s && validatorRegex s = false.
Proof.
  unfold tokenRegex, validatorRegex.
  split; [apply hexAddressRegexTest_toLowerCase|].
  split; [apply hexAddressRegexTest_toLowerCase|].
  split; [apply hexAddressRegexTest_length|].
  split; [apply hexAddressRegexTest_length|].
  destruct (hexAddressRegexTest 40 s) eqn:E40; [|reflexivity].
  destruct (hexAddressRegexTest 96 s) eqn:E96; [|reflexivity].
  apply hexAddressRegexTest_length in E40, E96. lia.
Qed.

Lemma address_patterns_witness :
  String.length ("0X" +++ hex40) = 42%nat.
Proof.
  apply (proj1 (proj2 (proj2 (address_patterns ("0X" +++ hex40))))).
  reflexivity.
Defined.

(** *** Objects: assignment and lookup *)

Lemma hasOwn_iff {A} (key : string) (obj : list (string * A)) :
  hasOwn key obj = true <-> In key (keys obj).
Proof.
  induction obj as [|[k x] obj IH]; cbn [hasOwn keys map fst In].
  - split; [discriminate | contradiction].
  - rewrite orb_true_iff, String.eqb_eq, IH. unfold keys. intuition.
Qed.

Lemma lookup_None_iff {A} (key : string) (obj : list (string * A)) :
  lookup key obj = None <-> hasOwn key obj = false.
Proof.
  induction obj as [|[k x] obj IH]; cbn [lookup hasOwn]; [tauto|].
  destruct (String.eqb key k); cbn [orb]; [split; discriminate | exact IH].
Qed.

Lemma lookup_Some_In {A} (key : string) (v : A) (obj : list (string * A)) :
  lookup key obj = Some v -> In (key, v) obj.
Proof.
  induction obj as [|[k x] obj IH]; cbn [lookup]; [discriminate|].
  destruct (String.eqb_spec key k) as [->|_].
  - intros [= ->]. left. reflexivity.
  - intros H. right. auto.
Qed.

Lemma keys_replaceValue {A} (key : string) (v : A) (obj : list (string * A)) :
  keys (replaceValue key v obj) = keys obj.
Proof.
  induction obj as [|[k x] obj IH]; [reflexivity|].
  cbn [replaceValue]. destruct (String.eqb key k); [reflexivity|].
  unfold keys in *. cbn [map fst]. rewrite IH. reflexivity.
Qed.

Lemma keys_insertIndexed {A} (n : N) (key : string) (v : A)
    (obj : list (string * A)) :
  exists front back,
    keys obj = front ++ back
    /\ keys (insertIndexed n key v obj) = front ++ key :: back.
Proof.
  induction obj as [|[k x] obj IH]; cbn [insertIndexed].
  - exists [], []. split; reflexivity.
  - destruct (arrayIndex k) as [m|].
    + destruct (n <? m)%N.
      * exists [], (keys ((k, x) :: obj)). split; reflexivity.
      * destruct IH as (front & back & E1 & E2).
        exists (k :: front), back. unfold keys in *.
        cbn [map fst app]. rewrite E1, E2. split; reflexivity.
    + exists [], (keys ((k, x) :: obj)). split; reflexivity.
Qed.

(** Assignment adds the key when it is new and nothing else. *)
Lemma keys_setProperty {A} (key : string) (v : A) (obj : list (string * A)) :
  (forall x, In x (keys (setProperty key v obj))
             <-> x = key \/ In x (keys obj))
  /\ (NoDup (keys obj) -> NoDup (keys (setProperty key v obj))).
Proof.
  unfold setProperty. destruct (hasOwn key obj) eqn:H; cbv beta iota.
  - rewrite keys_replaceValue. apply hasOwn_iff in H.
    split; [|auto]. intros x. split; [auto|].
    intros [->|Hx]; assumption.
  - assert (Hnot : ~ In key (keys obj)).
    { intros Hin. apply hasOwn_iff in Hin. congruence. }
    assert (G : exists front back,
               keys obj = front ++ back
               /\ keys match arrayIndex key with
                       | Some n => insertIndexed n key v obj
                       | None => obj ++ [(key, v)]
                       end = front ++ key :: back).
    { destruct (arrayIndex key) as [n|]; [apply keys_insertIndexed|].
      exists (keys obj), []. unfold keys. rewrite map_app, app_nil_r.
      split; reflexivity. }
    destruct G as (front & back & E1 & E2). rewrite E2, E1 in *. split.
    + intros x. rewrite !in_app_iff. cbn [In]. intuition.
    + intros Hnd. apply (NoDup_Add (Add_app key front back)).
      split; assumption.
Qed.

Lemma lookup_replaceValue {A} (key key' : string) (v : A)
    (obj : list (string * A)) :
  hasOwn key obj = true ->
  lookup key' (replaceValue key v obj)
  = if String.eqb key' key then Some v else lookup key' obj.
Proof.
  induction obj as [|[k x] obj IH]; cbn [hasOwn]; [discriminate|].
  cbn [replaceValue]. destruct (String.eqb_spec key k) as [->|Hne].
  - intros _. cbn [lookup]. destruct (String.eqb key' k); reflexivity.
  - cbn [orb]. intros H. cbn [lookup]. rewrite (IH H).
    destruct (String.eqb_spec key' k) as [->|_]; [|reflexivity].
    destruct (String.eqb_spec k key) as [->|_]; [contradiction|reflexivity].
Qed.

Lemma lookup_insertIndexed {A} (n : N) (key key' : string) (v : A)
    (obj : list (string * A)) :
  hasOwn key obj = false ->
  lookup key' (insertIndexed n key v obj)
  = if String.eqb key' key then Some v else lookup key' obj.
Proof.
  induction obj as [|[k x] obj IH]; cbn [hasOwn insertIndexed].
  - intros _. reflexivity.
  - intros H. apply orb_false_iff in H as [Hk H].
    destruct (arrayIndex k) as [m|]; [destruct (n <? m)%N|];
      try reflexivity.
    cbn [lookup]. rewrite (IH H).
    destruct (String.eqb_spec key' k) as [->|_]; [|reflexivity].
    rewrite String.eqb_sym, Hk. reflexivity.
Qed.

Lemma lookup_append {A} (key key' : string) (v : A)
    (obj : list (string * A)) :
  hasOwn key obj = false ->
  lookup key' (obj ++ [(key, v)])
  = if String.eqb key' key then Some v else lookup key' obj.
Proof.
  induction obj as [|[k x] obj IH]; cbn [hasOwn app lookup].
  - intros _. reflexivity.
  - intros H. apply orb_false_iff in H as [Hk H]. rewrite (IH H).
    destruct (String.eqb_spec key' k) as [->|_]; [|reflexivity].
    rewrite String.eqb_sym, Hk. reflexivity.
Qed.

(** Reading back what was assigned, and everything else untouched. *)
Lemma lookup_setProperty {A} (key key' : string) (v : A)
    (obj : list (string * A)) :
  lookup key' (setProperty key v obj)
  = if String.eqb key' key then Some v else lookup key' obj.
Proof.
  unfold setProperty. destruct (hasOwn key obj) eqn:H.
  - apply lookup_replaceValue. assumption.
  - destruct (arrayIndex key) as [n|];
      [apply lookup_insertIndexed | apply lookup_append]; assumption.
Qed.

(** *** Loading *)

Lemma lookup_storeFile (folder name : string) (content : Content)
    (jsonMetadata : Metadata) (key : string) :
  lookup key (storeFile folder name content jsonMetadata)
  = if String.eqb key folder
    then match lookup folder jsonMetadata with
         | Some files => Some (setProperty name content files)
         | None => if inherited folder then None
                   else Some (setProperty name content [])
         end
    else lookup key jsonMetadata.
Proof.
  unfold storeFile.
  destruct (lookup folder jsonMetadata) as [files|] eqn:E.
  - apply lookup_setProperty.
  - destruct (inherited folder).
    + destruct (String.eqb_spec key folder) as [->|_]; [assumption|].
      reflexivity.
    + apply lookup_setProperty.
Qed.

Lemma keys_storeFile (folder name : string) (content : Content)
    (jsonMetadata : Metadata) :
  (forall x, In x (keys (storeFile folder name content jsonMetadata))
             <-> In x (keys jsonMetadata)
                 \/ (x = folder /\ inherited folder = false))
  /\ (NoDup (keys jsonMetadata) ->
      NoDup (keys (storeFile folder name content jsonMetadata))).
Proof.
  unfold storeFile.
  destruct (lookup folder jsonMetadata) as [files|] eqn:E.
  - destruct (keys_setProperty folder (setProperty name content files)
                jsonMetadata) as [K N].
    split; [|assumption]. intros x. rewrite K.
    assert (Hin : In folder (keys jsonMetadata)).
    { apply lookup_Some_In in E. unfold keys.
      change folder with (fst (folder, files)). apply in_map. assumption. }
    split; [|intros [H|[-> _]]; auto].
    intros [->|H]; auto.
  - destruct (inherited folder) eqn:I.
    + split; [|auto]. intros x. split; [auto|].
      intros [H|[_ H]]; [assumption | discriminate].
    + destruct (keys_setProperty folder (setProperty name content [])
                  jsonMetadata) as [K N].
      split; [|assumption]. intros x. rewrite K. tauto.
Qed.

Lemma storeFile_WellKeyed (folder name : string) (content : Content)
    (jsonMetadata : Metadata) :
  WellKeyed jsonMetadata ->
  WellKeyed (storeFile folder name content jsonMetadata).
Proof.
  intros [Hnd Hin]. split; [apply keys_storeFile; assumption|].
  intros key files. rewrite lookup_storeFile.
  destruct (String.eqb_spec key folder) as [->|_]; [|apply Hin].
  assert (G : forall files0,
             NoDup (keys files0) ->
             NoDup (keys (setProperty name content files0))
             /\ setProperty name content files0 <> []).
  { intros files0 H0.
    destruct (keys_setProperty name content files0) as [K N].
    split; [auto|]. intros E.
    assert (In name (keys (setProperty name content files0)))
      by (apply K; auto).
    rewrite E in *. contradiction. }
  destruct (lookup folder jsonMetadata) as [files0|] eqn:E.
  - intros [= <-]. destruct (Hin folder files0 E) as (I & N0 & _).
    split; [assumption|]. apply G. assumption.
  - destruct (inherited folder) eqn:I; [discriminate|].
    intros [= <-]. split; [reflexivity|]. apply G. constructor.
Qed.

Section Loading.

Variable Doc : Type.
Variable JSONparse : string -> option Doc.
Variable property : Doc -> string -> Content.

Lemma loadFiles_WellKeyed (folder : string) (entries : list FolderEntry)
    (jsonMetadata loaded : Metadata) :
  WellKeyed jsonMetadata ->
  loadFiles Doc JSONparse property folder entries jsonMetadata = Some loaded ->
  WellKeyed loaded.
Proof.
  revert jsonMetadata.
  induction entries as [|[name text|name] rest IH]; intros md W;
    cbn [loadFiles].
  - intros [= <-]. assumption.
  - destruct (JSONparse text) as [doc|]; [|discriminate].
    apply IH. apply storeFile_WellKeyed. assumption.
  - apply IH. assumption.
Qed.

Lemma loadFolders_WellKeyed (root : list RootEntry) (names : list string)
    (jsonMetadata loaded : Metadata) :
  WellKeyed jsonMetadata ->
  loadFolders Doc JSONparse property root names jsonMetadata = Some loaded ->
  WellKeyed loaded.
Proof.
  revert jsonMetadata.
  induction names as [|folder rest IH]; intros md W; cbn [loadFolders].
  - intros [= <-]. assumption.
  - destruct (loadFiles Doc JSONparse property folder _ md) as [md1|] eqn:E;
      [|discriminate].
    apply IH. eapply loadFiles_WellKeyed; eassumption.
Qed.

Lemma loadMetadata_WellKeyed (root : list RootEntry) (loaded : Metadata) :
  loadMetadata Doc JSONparse property root = Some loaded -> WellKeyed loaded.
Proof.
  apply loadFolders_WellKeyed. split; [constructor | discriminate].
Qed.

End Loading.

(** X15: What the loader builds is a proper object: no category twice, every
    category with at least one file, no file twice in a category, and
    no category named after a property that objects inherit. *)
Theorem loaded_metadata_well_keyed (Doc : Type)
    (JSONparse : string -> option Doc)
    (property : Doc -> string -> Content)
    (root : list RootEntry) (jsonMetadata : Metadata) :
  loadMetadata Doc JSONparse property root = Some jsonMetadata ->
  NoDup (keys jsonMetadata)
  /\ forall key files,
       In (key, files) jsonMetadata ->
       NoDup (keys files) /\ files <> [] /\ inherited key = false.
Proof.
  intros H. destruct (loadMetadata_WellKeyed Doc JSONparse property root
                        jsonMetadata H) as [Hnd Hin].
  split; [assumption|]. intros key files Hkf.
  assert (L : lookup key jsonMetadata = Some files)
    by (apply lookup_NoDup; assumption).
  destruct (Hin key files L) as (I & N & E). auto.
Qed.

Lemma loaded_metadata_well_keyed_witness :
  NoDup (keys [("tokens",
                [("mainnet.json", sampleProperty "with address" "tokens");
                 ("testnet.json",
                  sampleProperty "without address" "tokens")])])
  /\ forall key files,
       In (key, files)
         [("tokens",
           [("mainnet.json", sampleProperty "with address" "tokens");
            ("testnet.json", sampleProperty "without address" "tokens")])] ->
       NoDup (keys files) /\ files <> [] /\ inherited key = false.
Proof.
  apply (loaded_metadata_well_keyed string sampleParse sampleProperty
           sampleRoot).
  reflexivity.
Defined.

Section LoadedKeys.

Variable Doc : Type.
Variable JSONparse : string -> option Doc.
Variable property : Doc -> string -> Content.

Lemma keys_loadFiles (folder : string) (entries : list FolderEntry)
    (jsonMetadata loaded : Metadata) :
  loadFiles Doc JSONparse property folder entries jsonMetadata = Some loaded ->
  forall x,
    In x (keys loaded)
    <-> In x (keys jsonMetadata)
        \/ (x = folder /\ inherited folder = false
            /\ exists name text, In (RegularFile name text) entries).
Proof.
  revert jsonMetadata.
  induction entries as [|[name text|name] rest IH]; intros md;
    cbn [loadFiles].
  - intros [= <-] x. split; [auto|].
    intros [H|(_ & _ & n & t & [])]. assumption.
  - destruct (JSONparse text) as [doc|]; [|discriminate].
    intros H x. rewrite (IH _ H x).
    destruct (keys_storeFile folder name (property doc folder) md) as [K _].
    rewrite K. split.
    + intros [[H1|(-> & I)]|(-> & I & n & t & Hin)]; auto.
      * right. repeat split; auto. exists name, text. left. reflexivity.
      * right. repeat split; auto. exists n, t. right. assumption.
    + intros [H1|(-> & I & n & t & Hin)]; auto.
  - intros H x. rewrite (IH _ H x). split.
    + intros [H1|(-> & I & n & t & Hin)]; auto.
      right. repeat split; auto. exists n, t. right. assumption.
    + intros [H1|(-> & I & n & t & [Hin|Hin])]; auto; [discriminate|].
      right. repeat split; auto. exists n, t. assumption.
Qed.

Lemma json_files_of_listing (listing : list FolderEntry) :
  (exists name text, In (RegularFile name text) (filter isJsonFile listing))
  <-> exists entry, In entry listing /\ isJsonFile entry = true.
Proof.
  split.
  - intros (name & text & H). apply filter_In in H. eauto.
  - intros ([name text|name] & Hin & Hj); [|discriminate].
    exists name, text. apply filter_In. auto.
Qed.

Lemma keys_loadFolders (root : list RootEntry) (names : list string)
    (jsonMetadata loaded : Metadata) :
  loadFolders Doc JSONparse property root names jsonMetadata = Some loaded ->
  forall x,
    In x (keys loaded)
    <-> In x (keys jsonMetadata)
        \/ (In x names /\ inherited x = false
            /\ exists entry,
                 In entry (listingOf root x) /\ isJsonFile entry = true).
Proof.
  revert jsonMetadata.
  induction names as [|folder rest IH]; intros md; cbn [loadFolders].
  - intros [= <-] x. split; [auto|]. intros [H|([] & _)]. assumption.
  - destruct (loadFiles Doc JSONparse property folder _ md) as [md1|] eqn:E;
      [|discriminate].
    intros H x. rewrite (IH _ H x), (keys_loadFiles _ _ _ _ E x).
    rewrite json_files_of_listing. cbn [In]. split.
    + intros [[H1|(-> & I & Hex)]|(Hin & I & Hex)]; auto.
    + intros [H1|([<-|Hin] & I & Hex)]; auto.
Qed.

Lemma In_folders (root : list RootEntry) (x : string) :
  In x (folders root)
  <-> (exists listing, In (Folder x listing) root)
      /\ arrayIncludes METADATA_FOLDER_EXCLUDED x = false.
Proof.
  unfold folders. rewrite in_flat_map. split.
  - intros ([name listing|name] & Hin & Hx); [|destruct Hx].
    destruct (arrayIncludes METADATA_FOLDER_EXCLUDED name) eqn:E;
      cbn [negb] in Hx; [destruct Hx|].
    destruct Hx as [<-|[]]. eauto.
  - intros ((listing & Hin) & E). exists (Folder x listing).
    split; [assumption|]. rewrite E. left. reflexivity.
Qed.



End LoadedKeys.

(** X16: In a root without a folder called [__proto__], the categories of
    the loaded metadata are exactly the directories of the root that
    are not excluded, do not bear the name of an inherited property and
    list at least one regular file whose name ends in [.json]; [assets]
    is never among them. *)
Theorem loaded_categories (Doc : Type) (JSONparse : string -> option Doc)
    (property : Doc -> string -> Content)
    (root : list RootEntry) (jsonMetadata : Metadata) :
  ~ In "__proto__" (folders root) ->
  loadMetadata Doc JSONparse property root = Some jsonMetadata ->
  (forall key,
     In key (keys jsonMetadata)
     <-> (exists listing, In (Folder key listing) root)
         /\ key <> "assets"
         /\ inherited key = false
         /\ exists entry,
              In entry (listingOf root key) /\ isJsonFile entry = true)
  /\ ~ In "assets" (keys jsonMetadata).
Proof.
  intros _ H.
  assert (K : forall key,
             In key (keys jsonMetadata)
             <-> (exists listing, In (Folder key listing) root)
                 /\ key <> "assets"
                 /\ inherited key = false
                 /\ exists entry,
                      In entry (listingOf root key)
                      /\ isJsonFile entry = true).
  { intros key.
    rewrite (keys_loadFolders Doc JSONparse property root (folders root) []
               jsonMetadata H key).
    rewrite In_folders.
    assert (X : arrayIncludes METADATA_FOLDER_EXCLUDED key = false
                <-> key <> "assets").
    { unfold arrayIncludes, METADATA_FOLDER_EXCLUDED. cbn [existsb].
      rewrite orb_false_r. apply String.eqb_neq. }
    rewrite X. cbn [keys map In]. tauto. }
  split; [exact K|].
  intros Hin. apply K in Hin. tauto.
Qed.

Lemma loaded_categories_witness :
  ~ In "assets"
      (keys [("tokens",
              [("mainnet.json", sampleProperty "with address" "tokens");
               ("testnet.json",
                sampleProperty "without address" "tokens")])]).
Proof.
  apply (loaded_categories string sampleParse sampleProperty sampleRoot);
    [|reflexivity].
  cbn. intuition discriminate.
Defined.



(** *** What is stored for a category *)

Lemma allDigits_drop (n : nat) (s : string) :
  allDigits s = true -> allDigits (drop n s) = true.
Proof.
  revert s. induction n as [|n IH]; intros s H; [assumption|].
  destruct s as [|c s]; [reflexivity|].
  cbn [allDigits] in H. apply andb_true_iff in H as [_ H].
  cbn [drop]. auto.
Qed.

Lemma json_name_not_index (name : string) :
  endsWith ".json" name = true -> arrayIndex name = None.
Proof.
  unfold endsWith. intros H. apply andb_true_iff in H as [_ H].
  apply String.eqb_eq in H.
  unfold arrayIndex. destruct name as [|c rest]; [reflexivity|].
  destruct (allDigits (String c rest)) eqn:D; [|reflexivity].
  apply (allDigits_drop
           (String.length (String c rest) - String.length ".json")) in D.
  rewrite H in D. discriminate.
Qed.

Lemma setProperty_new {A} (key : string) (v : A) (obj : list (string * A)) :
  ~ In key (keys obj) -> arrayIndex key = None ->
  setProperty key v obj = obj ++ [(key, v)].
Proof.
  intros Hnot Hidx. unfold setProperty.
  destruct (hasOwn key obj) eqn:H;
    [apply hasOwn_iff in H; contradiction|].
  rewrite Hidx. reflexivity.
Qed.

Lemma filesOf_storeFile (folder name : string) (content : Content)
    (jsonMetadata : Metadata) :
  inherited folder = false ->
  filesOf (storeFile folder name content jsonMetadata) folder
  = setProperty name content (filesOf jsonMetadata folder).
Proof.
  intros I. unfold filesOf. rewrite lookup_storeFile, String.eqb_refl.
  destruct (lookup folder jsonMetadata); [reflexivity|].
  rewrite I. reflexivity.
Qed.

Section LoadedFiles.

Variable Doc : Type.
Variable JSONparse : string -> option Doc.
Variable property : Doc -> string -> Content.

Lemma loadFiles_other (folder : string) (entries : list FolderEntry)
    (jsonMetadata loaded : Metadata) (key : string) :
  loadFiles Doc JSONparse property folder entries jsonMetadata = Some loaded ->
  key <> folder ->
  lookup key loaded = lookup key jsonMetadata.
Proof.
  intros H Hne. revert jsonMetadata H.
  induction entries as [|[name text|name] rest IH]; intros md;
    cbn [loadFiles].
  - intros [= <-]. reflexivity.
  - destruct (JSONparse text) as [doc|]; [|discriminate].
    intros H. rewrite (IH _ H), lookup_storeFile.
    apply String.eqb_neq in Hne. rewrite Hne. reflexivity.
  - apply IH.
Qed.

Lemma loadFiles_files (folder : string) (entries : list FolderEntry)
    (jsonMetadata loaded : Metadata) :
  inherited folder = false ->
  Forall (fun entry => isJsonFile entry = true) entries ->
  NoDup (map entryName entries) ->
  (forall entry, In entry entries ->
                 ~ In (entryName entry) (keys (filesOf jsonMetadata folder))) ->
  loadFiles Doc JSONparse property folder entries jsonMetadata = Some loaded ->
  filesOf loaded folder
  = filesOf jsonMetadata folder
    ++ map (loadedFile Doc JSONparse property folder) entries.
Proof.
  intros I. revert jsonMetadata.
  induction entries as [|entry rest IH]; intros md Hj Hnd Hfresh;
    cbn [loadFiles map].
  - intros [= <-]. rewrite app_nil_r. reflexivity.
  - inversion Hj as [|? ? Hje Hjrest]; subst.
    cbn [map] in Hnd. inversion Hnd as [|? ? Hnotin Hndrest]; subst.
    destruct entry as [name text|name]; [|discriminate].
    cbn [isJsonFile entryName] in *.
    destruct (JSONparse text) as [doc|] eqn:P; [|discriminate].
    intros H.
    assert (F : filesOf (storeFile folder name (property doc folder) md)
                  folder
                = filesOf md folder ++ [(name, property doc folder)]).
    { rewrite filesOf_storeFile by assumption.
      apply setProperty_new.
      - apply (Hfresh (RegularFile name text)). left. reflexivity.
      - apply json_name_not_index. assumption. }
    rewrite (IH (storeFile folder name (property doc folder) md)
               Hjrest Hndrest); [| |exact H].
    + rewrite F, <- app_assoc. unfold loadedFile at 2.
      cbn [entryName app]. rewrite P. reflexivity.
    + intros e He. rewrite F. unfold keys. rewrite map_app, in_app_iff.
      cbn [map fst In]. intros [Hin|[Heq|[]]].
      * apply (Hfresh e); [right; assumption | exact Hin].
      * apply Hnotin. rewrite Heq. apply in_map. assumption.
Qed.

Lemma loadFolders_files (root : list RootEntry) (names : list string)
    (jsonMetadata loaded : Metadata) (key : string) :
  loadFolders Doc JSONparse property root names jsonMetadata = Some loaded ->
  NoDup names ->
  inherited key = false ->
  NoDup (map entryName (filter isJsonFile (listingOf root key))) ->
  (In key names -> filesOf jsonMetadata key = []) ->
  (In key names ->
   filesOf loaded key
   = map (loadedFile Doc JSONparse property key)
       (filter isJsonFile (listingOf root key)))
  /\ (~ In key names -> filesOf loaded key = filesOf jsonMetadata key).
Proof.
  intros H Hnd I Hl. revert jsonMetadata H.
  induction names as [|folder rest IH]; intros md; cbn [loadFolders].
  - intros [= <-] _. split; [intros [] | reflexivity].
  - destruct (loadFiles Doc JSONparse property folder _ md) as [md1|] eqn:E;
      [|discriminate].
    intros H Hfresh. inversion Hnd as [|? ? Hnotin Hndrest]; subst.
    destruct (String.eqb_spec key folder) as [->|Hne].
    + assert (F : filesOf md1 folder
                  = map (loadedFile Doc JSONparse property folder)
                      (filter isJsonFile (listingOf root folder))).
      { rewrite (loadFiles_files folder
                   (filter isJsonFile (listingOf root folder)) md md1 I);
          try assumption.
        - rewrite Hfresh by (left; reflexivity). reflexivity.
        - apply Forall_forall. intros e He. apply filter_In in He. tauto.
        - intros e _. rewrite Hfresh by (left; reflexivity). intros []. }
      destruct (IH Hndrest md1 H) as [_ Hout];
        [intros Hin; contradiction|].
      split; [|intros Hn; exfalso; apply Hn; left; reflexivity].
      intros _. rewrite (Hout Hnotin). exact F.
    + assert (O : filesOf md1 key = filesOf md key).
      { unfold filesOf.
        rewrite (loadFiles_other folder
                   (filter isJsonFile (listingOf root folder)) md md1 key E
                   Hne).
        reflexivity. }
      destruct (IH Hndrest md1 H) as [Hin Hout].
      { intros Hk. rewrite O. apply Hfresh. right. assumption. }
      split.
      * intros [Hk|Hk]; [congruence | auto].
      * intros Hn. rewrite Hout by (intros Hk; apply Hn; right; assumption).
        exact O.
Qed.

End LoadedFiles.

(** X17: What is stored under a category is what its folder lists: one
    entry per regular [.json] file, in listing order, each under the
    name of the file and holding the value found under the category's
    name in the parsed document. *)
Theorem loaded_category_files (Doc : Type)
    (JSONparse : string -> option Doc)
    (property : Doc -> string -> Content)
    (root : list RootEntry) (jsonMetadata : Metadata) (key : string) :
  loadMetadata Doc JSONparse property root = Some jsonMetadata ->
  NoDup (folders root) ->
  NoDup (map entryName (filter isJsonFile (listingOf root key))) ->
  In key (keys jsonMetadata) ->
  lookup key jsonMetadata
  = Some (map (loadedFile Doc JSONparse property key)
            (filter isJsonFile (listingOf root key))).
Proof.
  intros H Hnd Hl Hin.
  pose proof (keys_loadFolders Doc JSONparse property root (folders root) []
                jsonMetadata H key) as K.
  apply K in Hin as Hk. destruct Hk as [[]|(Hf & I & _)].
  destruct (loadFolders_files Doc JSONparse property root (folders root) []
              jsonMetadata key H Hnd I Hl) as [F _]; [reflexivity|].
  specialize (F Hf). unfold filesOf in F.
  destruct (lookup key jsonMetadata) as [files|] eqn:E; [congruence|].
  apply lookup_None_iff in E.
  apply hasOwn_iff in Hin. congruence.
Qed.

Lemma loaded_category_files_witness :
  lookup "tokens"
    [("tokens",
      [("mainnet.json", sampleProperty "with address" "tokens");
       ("testnet.json", sampleProperty "without address" "tokens")])]
  = Some (map (loadedFile string sampleParse sampleProperty "tokens")
            (filter isJsonFile (listingOf sampleRoot "tokens"))).
Proof.
  apply (loaded_category_files string sampleParse sampleProperty sampleRoot).
  - reflexivity.
  - repeat constructor; cbn; intuition discriminate.
  - repeat constructor; cbn; intuition discriminate.
  - left. reflexivity.
Defined.

(** *** The metadata pass as a whole *)

Section WholePass.

Variable existsSync : string -> bool.
Variable dirname : string.

Lemma checkCategory_errors (jsonMetadata : Metadata) (key : string)
    (files : list (string * Content)) (errors : list string) :
  lookup key jsonMetadata = Some files ->
  NoDup (keys files) ->
  checkCategory existsSync dirname jsonMetadata key errors
  = pushed errors (categoryErrors existsSync dirname key files).
Proof.
  intros Hl Hnd. unfold checkCategory, categoryErrors.
  destruct (String.eqb key "tokens") eqn:E1.
  { apply (forEachFile_checks existsSync dirname _ "tokens" address
             tokenNotFound); auto using checkToken_checks. }
  destruct (String.eqb key "validators") eqn:E2.
  { apply (forEachFile_checks existsSync dirname _ "validators" id
             validatorNotFound); auto using checkValidator_checks. }
  destruct (String.eqb key "vaults") eqn:E3.
  { apply (forEachFile_checks existsSync dirname _ "tokens"
             stakingTokenAddress vaultNotFound);
      auto using checkVault_checks. }
  cbn [pushed]. rewrite app_nil_r. reflexivity.
Qed.

Lemma forEach_checkCategory (jsonMetadata part : Metadata)
    (errors : list string) :
  NoDup (keys jsonMetadata) ->
  (forall key files, In (key, files) jsonMetadata -> NoDup (keys files)) ->
  incl part jsonMetadata ->
  forEach (checkCategory existsSync dirname jsonMetadata) (keys part) errors
  = pushed errors (passErrors existsSync dirname part).
Proof.
  intros Hnd Hfiles. revert errors.
  induction part as [|[key files] part IH]; intros errors Hincl.
  - cbn. rewrite app_nil_r. reflexivity.
  - assert (Hin : In (key, files) jsonMetadata)
      by (apply Hincl; left; reflexivity).
    unfold keys. cbn [map fst forEach passErrors]. fold (keys part).
    rewrite (checkCategory_errors jsonMetadata key files errors);
      [|apply lookup_NoDup; assumption | eapply Hfiles; eassumption].
    destruct (categoryErrors existsSync dirname key files) as [first|];
      [|reflexivity].
    cbn [pushed bind].
    rewrite IH by (intros x Hx; apply Hincl; right; assumption).
    destruct (passErrors existsSync dirname part) as [others|];
      [|reflexivity].
    cbn [pushed]. rewrite app_assoc. reflexivity.
Qed.

Lemma forEach_ReturnsOrTypeError {A}
    (f : A -> list string -> completion (list string)) (l : list A)
    (errors : list string) :
  (forall x errs, ReturnsOrTypeError (f x errs)) ->
  ReturnsOrTypeError (forEach f l errors).
Proof.
  intros Hf. revert errors.
  induction l as [|x l IH]; intros errors; cbn [forEach].
  - left. eauto.
  - destruct (Hf x errors) as [(errs & ->)| ->]; cbn [bind];
      [apply IH | right; reflexivity].
Qed.

Lemma forEach_throws {A}
    (f : A -> list string -> completion (list string)) (l : list A)
    (x : A) (errors : list string) :
  (forall y errs, ReturnsOrTypeError (f y errs)) ->
  In x l ->
  (forall errs, f x errs = Throw TypeError) ->
  forEach f l errors = Throw TypeError.
Proof.
  intros Hf Hin Hx. revert errors.
  induction l as [|y l IH]; intros errors; [destruct Hin|].
  cbn [forEach]. destruct Hin as [->|Hin].
  - rewrite Hx. reflexivity.
  - destruct (Hf y errors) as [(errs & ->)| ->]; cbn [bind];
      [apply IH; assumption | reflexivity].
Qed.

Lemma forEachFile_ReturnsOrTypeError check (jsonMetadata : Metadata)
    (key : string) (errors : list string) :
  (forall e errs, ReturnsOrTypeError (check e errs)) ->
  ReturnsOrTypeError (forEachFile check jsonMetadata key errors).
Proof.
  intros Hc. unfold forEachFile.
  destruct (lookup key jsonMetadata) as [files|]; [|right; reflexivity].
  apply forEach_ReturnsOrTypeError. intros file errs.
  destruct (lookup file files) as [[elements|]|];
    try (right; reflexivity).
  apply forEach_ReturnsOrTypeError. assumption.
Qed.

Lemma check_ReturnsOrTypeError check folder field msg (e : Element)
    (errors : list string) :
  Checks existsSync dirname check folder field msg ->
  ReturnsOrTypeError (check e errors).
Proof.
  intros C. rewrite C.
  destruct (identifier field e); [left; eauto | right; reflexivity].
Qed.

Lemma checkCategory_ReturnsOrTypeError (jsonMetadata : Metadata)
    (key : string) (errors : list string) :
  ReturnsOrTypeError (checkCategory existsSync dirname jsonMetadata key errors).
Proof.
  unfold checkCategory.
  destruct (String.eqb key "tokens");
    [|destruct (String.eqb key "validators");
      [|destruct (String.eqb key "vaults"); [|left; eauto]]];
    apply forEachFile_ReturnsOrTypeError; intros e errs;
    eauto using check_ReturnsOrTypeError, checkToken_checks,
      checkValidator_checks, checkVault_checks.
Qed.

Lemma forEachFile_throws check (jsonMetadata : Metadata) (key file : string)
    (files : list (string * Content)) (errors : list string) :
  (forall e errs, ReturnsOrTypeError (check e errs)) ->
  lookup key jsonMetadata = Some files ->
  NoDup (keys files) ->
  In (file, None) files ->
  forEachFile check jsonMetadata key errors = Throw TypeError.
Proof.
  intros Hc Hl Hnd Hin. unfold forEachFile. rewrite Hl.
  apply (forEach_throws _ (keys files) file).
  - intros f errs. destruct (lookup f files) as [[elements|]|];
      try (right; reflexivity).
    apply forEach_ReturnsOrTypeError. assumption.
  - unfold keys. change file with (fst (file, @None (list Element))).
    apply in_map. assumption.
  - intros errs. rewrite (lookup_NoDup files file None Hnd Hin). reflexivity.
Qed.

Lemma metadataErrors_throws (jsonMetadata : Metadata) (key file : string)
    (files : list (string * Content)) :
  NoDup (keys jsonMetadata) ->
  In (key, files) jsonMetadata ->
  knownCategory key = true ->
  NoDup (keys files) ->
  In (file, None) files ->
  metadataErrors existsSync dirname jsonMetadata = Throw TypeError.
Proof.
  intros Hnd Hin Hk Hndf Hf. unfold metadataErrors.
  apply (forEach_throws _ (keys jsonMetadata) key).
  - intros y errs. apply checkCategory_ReturnsOrTypeError.
  - unfold keys. change key with (fst (key, files)). apply in_map. assumption.
  - intros errs. unfold checkCategory, knownCategory in *.
    assert (L : lookup key jsonMetadata = Some files)
      by (apply lookup_NoDup; assumption).
    assert (C : forall check,
               (forall e errs', ReturnsOrTypeError (check e errs')) ->
               forEachFile check jsonMetadata key errs = Throw TypeError).
    { intros check Hc. eapply forEachFile_throws; eassumption. }
    destruct (String.eqb key "tokens");
      [|destruct (String.eqb key "validators");
        [|destruct (String.eqb key "vaults"); [|discriminate]]];
      apply C; intros e errs';
      eauto using check_ReturnsOrTypeError, checkToken_checks,
        checkValidator_checks, checkVault_checks.
Qed.

End WholePass.

(** X19: The outcome of the checks as a whole.  The categories are visited
    in key order, the files of each in key order, the elements of each
    in array order, and each element for which the script finds no
    image adds its one message; nothing else is added and nothing is
    left out.  The checks raise a TypeError instead, and all messages
    are lost, exactly when some file of a known category holds no
    array or some element of it has no identifier. *)
Theorem metadata_pass_errors (existsSync : string -> bool) (dirname : string)
    (jsonMetadata : Metadata) :
  NoDup (keys jsonMetadata) ->
  (forall key files, In (key, files) jsonMetadata -> NoDup (keys files)) ->
  metadataErrors existsSync dirname jsonMetadata
  = match passErrors existsSync dirname jsonMetadata with
    | Some warnings => Normal warnings
    | None => Throw TypeError
    end.
Proof.
  intros Hnd Hfiles. unfold metadataErrors.
  rewrite (forEach_checkCategory existsSync dirname jsonMetadata jsonMetadata
             [] Hnd Hfiles (incl_refl jsonMetadata)).
  destruct (passErrors existsSync dirname jsonMetadata); reflexivity.
Qed.

Lemma metadata_pass_errors_witness :
  metadataErrors sampleExists "/repo/scripts"
    (sampleMetadata
     ++ [("validators", [("list.json", Some [Null])])])
  = Throw TypeError.
Proof.
  apply (metadata_pass_errors sampleExists "/repo/scripts"
           (sampleMetadata
            ++ [("validators", [("list.json", Some [Null])])])).
  - repeat constructor; cbn; intuition discriminate.
  - intros key files [[= <- <-]|[[= <- <-]|[[= <- <-]|[[= <- <-]|[]]]]];
      repeat constructor; intros [].
Defined.

(** X20: A file of a known category that holds no array (a document without
    the category's key, say) ends the metadata pass in a TypeError:
    no warning is printed, and a run whose asset pass was clean ends on
    the uncaught exception, with status 1. *)
Theorem non_array_content_raises (existsSync : string -> bool)
    (dirname : string) (assets : list Dirent) (jsonMetadata : Metadata)
    (key file : string) (files : list (string * Content)) :
  NoDup (keys jsonMetadata) ->
  In (key, files) jsonMetadata ->
  knownCategory key = true ->
  NoDup (keys files) ->
  In (file, None) files ->
  validateMetadataImages existsSync dirname jsonMetadata = Throw TypeError
  /\ (validateAssetsImages assets = Normal tt ->
      main existsSync dirname assets jsonMetadata = Uncaught TypeError
      /\ exitStatus (main existsSync dirname assets jsonMetadata) = 1).
Proof.
  intros Hnd Hin Hk Hndf Hf.
  assert (T : validateMetadataImages existsSync dirname jsonMetadata
              = Throw TypeError).
  { unfold validateMetadataImages.
    rewrite (metadataErrors_throws existsSync dirname jsonMetadata key file
               files Hnd Hin Hk Hndf Hf).
    reflexivity. }
  split; [assumption|].
  intros Ha. unfold main. rewrite Ha, T. split; reflexivity.
Qed.

Lemma non_array_content_raises_witness :
  validateMetadataImages sampleExists "/repo/scripts"
    [("pools", [("list.json", None)]); ("vaults", [("list.json", None)])]
  = Throw TypeError
  /\ (validateAssetsImages [] = Normal tt ->
      main sampleExists "/repo/scripts" []
        [("pools", [("list.json", None)]); ("vaults", [("list.json", None)])]
      = Uncaught TypeError
      /\ exitStatus
           (main sampleExists "/repo/scripts" []
              [("pools", [("list.json", None)]);
               ("vaults", [("list.json", None)])]) = 1).
Proof.
  apply (non_array_content_raises sampleExists "/repo/scripts" []
           [("pools", [("list.json", None)]);
            ("vaults", [("list.json", None)])]
           "vaults" "list.json" [("list.json", None)]).
  - repeat constructor; cbn; intuition discriminate.
  - right. left. reflexivity.
  - reflexivity.
  - repeat constructor. intros [].
  - left. reflexivity.
Defined.

(** X21: From the directory listings to the output, for a root without a
    folder called [__proto__]: whenever the metadata loads, the pass
    either prints the count followed by the warnings of all
    categories, or nothing when there is none, or raises a TypeError
    where the warnings are undefined.  No further condition on the
    loaded object is needed. *)
Theorem loaded_metadata_pass (Doc : Type) (JSONparse : string -> option Doc)
    (property : Doc -> string -> Content)
    (existsSync : string -> bool) (dirname : string)
    (root : list RootEntry) (jsonMetadata : Metadata) :
  ~ In "__proto__" (folders root) ->
  loadMetadata Doc JSONparse property root = Some jsonMetadata ->
  validateMetadataImages existsSync dirname jsonMetadata
  = match passErrors existsSync dirname jsonMetadata with
    | Some warnings => Normal (printed warnings)
    | None => Throw TypeError
    end.
Proof.
  intros _ H.
  destruct (loadMetadata_WellKeyed Doc JSONparse property root jsonMetadata H)
    as [Hnd Hin].
  assert (Hfiles : forall key files,
             In (key, files) jsonMetadata -> NoDup (keys files)).
  { intros key files Hkf.
    apply (Hin key files). apply lookup_NoDup; assumption. }
  unfold validateMetadataImages, metadataErrors.
  rewrite (forEach_checkCategory existsSync dirname jsonMetadata jsonMetadata
             [] Hnd Hfiles (incl_refl jsonMetadata)).
  destruct (passErrors existsSync dirname jsonMetadata) as [warnings|];
    [|reflexivity].
  cbn [pushed bind app]. destruct warnings; reflexivity.
Qed.

Lemma loaded_metadata_pass_witness :
  validateMetadataImages sampleExists "/repo/scripts"
    [("tokens",
      [("mainnet.json", sampleProperty "with address" "tokens");
       ("testnet.json", sampleProperty "without address" "tokens")])]
  = Normal ["1 Errors found in metadata:";
            yellow (tokenNotFound "undefined")].
Proof.
  apply (loaded_metadata_pass string sampleParse sampleProperty sampleExists
           "/repo/scripts" sampleRoot).
  - cbn. intuition discriminate.
  - reflexivity.
Defined.

(** *** Identifiers that are not plain names *)

Lemma normalize_cancel (a b : string) :
  a <> "" -> b <> "" ->
  normalize (a +++ "/" +++ "tokens" +++ "/" +++ ".." +++ "/" +++ b)
  = normalize (a +++ "/" +++ b).
Proof.
  intros Ha Hb.
  assert (N : forall rest, String.eqb (a +++ rest) "" = false).
  { intros rest. apply String.eqb_neq.
    destruct a; [contradiction | discriminate]. }
  assert (E : endsWithSlash
                (a +++ "/" +++ "tokens" +++ "/" +++ ".." +++ "/" +++ b)
              = endsWithSlash (a +++ "/" +++ b)).
  { rewrite (endsWithSlash_append a) by discriminate.
    rewrite (endsWithSlash_append a) by discriminate.
    change ("/" +++ "tokens" +++ "/" +++ ".." +++ "/" +++ b)
      with ("/tokens/../" +++ b).
    rewrite (endsWithSlash_append "/tokens/../" b) by assumption.
    rewrite (endsWithSlash_append "/" b) by assumption. reflexivity. }
  unfold normalize. rewrite !N, E, !startsWithSlash_append by assumption.
  cbv zeta.
  assert (R : normalizeString
                (a +++ "/" +++ "tokens" +++ "/" +++ ".." +++ "/" +++ b)
                (negb (startsWithSlash a))
              = normalizeString (a +++ "/" +++ b) (negb (startsWithSlash a))).
  { unfold normalizeString. rewrite !segments_append, !fold_left_app.
    reflexivity. }
  rewrite R. reflexivity.
Qed.

Lemma pathJoin_parent (dirname q : string) :
  plainPath q = true ->
  pathJoin dirname
    ("../" +++ METADATA_FOLDER +++ "/assets/tokens/" +++ "../" +++ q)
  = metadataRoot dirname +++ "/assets/" +++ q.
Proof.
  intros Hq.
  pose proof (plainPath_nonempty q Hq) as Hq0.
  assert (B : pathJoin dirname
                ("../" +++ METADATA_FOLDER +++ "/" +++ "assets" +++ "/" +++ q)
              = metadataRoot dirname +++ "/" +++ "assets" +++ "/" +++ q).
  { apply pathJoin_below. apply plainPath_append; [reflexivity | assumption]. }
  change (metadataRoot dirname +++ "/assets/" +++ q)
    with (metadataRoot dirname +++ "/" +++ "assets" +++ "/" +++ q).
  rewrite <- B.
  destruct dirname as [|c d].
  - change (pathJoin ""
              ("../" +++ METADATA_FOLDER +++ "/assets/tokens/" +++ "../" +++ q))
      with (normalize ("../src/assets" +++ "/" +++ "tokens" +++ "/" +++ ".."
                       +++ "/" +++ q)).
    change (pathJoin ""
              ("../" +++ METADATA_FOLDER +++ "/" +++ "assets" +++ "/" +++ q))
      with (normalize ("../src/assets" +++ "/" +++ q)).
    apply normalize_cancel; [discriminate | assumption].
  - change (pathJoin (String c d)
              ("../" +++ METADATA_FOLDER +++ "/assets/tokens/" +++ "../" +++ q))
      with (normalize (String c d +++ "/../src/assets" +++ "/" +++ "tokens"
                       +++ "/" +++ ".." +++ "/" +++ q)).
    change (pathJoin (String c d)
              ("../" +++ METADATA_FOLDER +++ "/" +++ "assets" +++ "/" +++ q))
      with (normalize (String c d +++ "/../src/assets" +++ "/" +++ q)).
    rewrite <- !(append_assoc (String c d) "/../src/assets").
    apply normalize_cancel; [discriminate | assumption].
Qed.

(** X23: An address need not stay in the tokens folder.  For an address
    that starts with [../] and goes on with plain names, [path.join]
    resolves the step up, and the files the check looks for are those
    of that rest in the assets folder itself: a token whose address is
    [../validators/] followed by the name of a validator image is
    found.  The message, when there is one, gives the address as it is
    written. *)
Theorem parent_address_resolved (existsSync : string -> bool)
    (dirname q : string) (errors : list string) :
  plainPath q = true ->
  checkToken existsSync dirname
    (entity (Text ("../" +++ q)) Undefined Undefined) errors
  = Normal
      (if forallb
            (fun ext =>
               negb (existsSync
                       (metadataRoot dirname +++ "/assets/" +++ q +++ ext)))
            [".png"; ".jpg"; ".jpeg"]
       then errors
            ++ [("../" +++ q) +++ ":" +++ newline
                +++ "Token file not found in assets/tokens folder!"]
       else errors).
Proof.
  intros Hq. unfold checkToken, entity. cbn [address showId bind].
  rewrite (pathJoin_parent dirname q Hq).
  unfold noImage. cbn [forallb].
  rewrite !append_assoc, andb_true_r, andb_assoc.
  destruct (_ && _); reflexivity.
Qed.

Lemma parent_address_resolved_witness :
  checkToken
    (fun path => String.eqb path "/repo/src/assets/validators/0xab.png")
    "/repo/scripts"
    (entity (Text "../validators/0xab") Undefined Undefined) []
  = Normal [].
Proof.
  apply (parent_address_resolved
           (fun path => String.eqb path "/repo/src/assets/validators/0xab.png")
           "/repo/scripts" "validators/0xab" []).
  reflexivity.
Defined.

(** *** The paths of the traversal *)

(** X22: The paths the traversal builds are concatenations.  For the path of
    a directory that is made of plain names and an entry name that is
    one, [path.join] returns the two with a separator between them, and
    the result is again made of plain names, so that this carries on
    into the subdirectories; the traversal starts from [src/assets],
    which is such a path and is what [path.join] makes of [src] and
    [assets]. *)
Theorem entry_paths_are_joined (dirPath name : string) :
  plainPath dirPath = true ->
  plainPath name = true ->
  pathJoin dirPath name = join dirPath name
  /\ plainPath (join dirPath name) = true
  /\ pathJoin METADATA_FOLDER "assets" = FOLDER_PATH
  /\ plainPath FOLDER_PATH = true.
Proof.
  intros Hd Hn. split; [apply pathJoin_entry; assumption|].
  split; [apply plainPath_append; assumption|].
  split; reflexivity.
Qed.

Lemma entry_paths_are_joined_witness :
  pathJoin FOLDER_PATH "tokens" = "src/assets/tokens"
  /\ plainPath "src/assets/tokens" = true
  /\ pathJoin METADATA_FOLDER "assets" = FOLDER_PATH
  /\ plainPath FOLDER_PATH = true.
Proof.
  apply (entry_paths_are_joined FOLDER_PATH "tokens"); reflexivity.
Defined.

(** *** Messages *)

(** X14: Every message a file adds is keyed by the file: it starts with the
    path of the file relative to the assets folder, followed by
    [: Invalid ]. *)
Theorem messages_name_the_file (dirPath name : string) (content : Buffer)
    (errors errors' : list string) (message : string) :
  processFile dirPath name content errors = Normal errors' ->
  In message (skipn (List.length errors) errors') ->
  String.prefix (relative FOLDER_PATH (join dirPath name) +++ ": Invalid ")
    message = true.
Proof.
  intros Hp Hin.
  set (rel := relative FOLDER_PATH (join dirPath name)) in *.
  assert (P : forall tail,
             String.prefix (rel +++ ": Invalid ")
               (rel +++ ": Invalid " +++ tail) = true).
  { intros tail. rewrite <- append_assoc. apply prefix_append. }
  destruct (getImageDimensions content) as [d|e|c out] eqn:Hd;
    try (unfold processFile in Hp;
         destruct (isImageExt (toLowerCase (extname name)));
         [rewrite Hd in Hp|]; discriminate).
  destruct (processFile_pushed dirPath name content d errors errors' Hd Hp)
    as (n & t & -> & Hn & Ht).
  rewrite skipn_length_app in Hin. fold rel in Hn, Ht, Hin.
  rewrite !in_app_iff in Hin. destruct Hin as [Hin|[Hin|Hin]].
  - destruct Hn as [-> | [-> | ->]]; cbn [In] in Hin; try contradiction;
      destruct Hin as [<-|[]];
      [apply (P "file name! Must be a valid token address.")
      |apply (P "file name! Must be a valid validator pubkey address.")].
  - destruct (badDimensions d); cbn [In] in Hin; try contradiction.
    destruct Hin as [<-|[]]. fold rel.
    apply (P ("(Dimensions: " +++ showField width d +++ "x"
              +++ showField height d +++ ")! Must be 1024x1024 pixels.")).
  - destruct Ht as [-> | ->]; cbn [In] in Hin; try contradiction.
    destruct Hin as [<-|[]].
    apply (P "image! Image cannot be transparent!").
Qed.

Lemma messages_name_the_file_witness :
  String.prefix
    (relative FOLDER_PATH (join (join FOLDER_PATH "tokens") "a.png")
     +++ ": Invalid ")
    (invalidDimensions "tokens/a.png" (Some {| width := 8; height := 8 |}))
  = true.
Proof.
  apply (messages_name_the_file (join FOLDER_PATH "tokens") "a.png" png8 []
           [invalidTokenName "tokens/a.png";
            invalidDimensions "tokens/a.png"
              (Some {| width := 8; height := 8 |})]).
  - reflexivity.
  - right. left. reflexivity.
Defined.

Lemma reader_outcomes_witness :
  getImageDimensions PNG_SIGNATURE = Throw RangeError.
Proof.
  apply (proj2 (proj1 (proj2 (reader_outcomes PNG_SIGNATURE)))).
  split; [reflexivity | by_computation].
Defined.
